(** * Hartree-Slater generalised oscillator strengths

    A shallow embedding of [hyperspy/misc/eels/hartree_slater_gos.py]: the
    convention table that maps a subshell label to a tabulated file and a
    normalisation factor, the construction of a [HartreeSlaterGOS] object
    (from a parametrised table file or from an exported dictionary) and the
    integration of the tabulated GOS over the momentum transfer,
    [integrateq].

    Numbers.  The program computes with binary64 floats.  The embedding
    computes with real numbers and makes explicit the two ways in which the
    program can leave the reals: an operation of Python's own ([/] on
    Python floats, [math.sqrt]) raises an exception outside its domain,
    whereas a numpy operation ([np.sqrt], [np.log], [/] on numpy values)
    returns NaN or an infinity there and goes on.  The second case is the
    outcome [NonFinite] of a computation: the embedding does not follow the
    program past it.  Rounding, overflow and underflow are not modelled. *)

From Stdlib Require Import Reals Lra Lia ZArith QArith Qreals.
From Stdlib Require Import List String Ascii Bool.
Import ListNotations.

Set Implicit Arguments.

(** ** Outcomes of a computation *)

(** The exceptions the program can raise.  [QOutOfRangeError] is not a
    Python exception: it is the failure the specification assigns to a
    momentum transfer outside the tabulated range. *)
Inductive exn : Type :=
| AttributeError (attr : string)
| IndexError
| KeyError (key : string)
| ValueError
| ZeroDivisionError
| FileNotFoundError
| QOutOfRangeError.

Inductive result (A : Type) : Type :=
| Ok (a : A)
| Raise (e : exn)
| NonFinite.

Arguments Ok {A} a.
Arguments Raise {A} e.
Arguments NonFinite {A}.

Definition bind {A B : Type} (c : result A) (k : A -> result B) : result B :=
  match c with
  | Ok a => k a
  | Raise e => Raise e
  | NonFinite => NonFinite
  end.

Declare Scope result_scope.
Delimit Scope result_scope with result.
Notation "x <- c ;; k" := (bind c (fun x => k))
  (at level 61, c at next level, right associativity) : result_scope.
Notation "' p <- c ;; k" := (bind c (fun p => k))
  (at level 61, p pattern, c at next level, right associativity) : result_scope.

(** Reading an attribute that was never assigned raises [AttributeError]. *)
Definition attr {A : Type} (name : string) (v : option A) : result A :=
  match v with
  | Some a => Ok a
  | None => Raise (AttributeError name)
  end.

(** [l[i]] for a non-negative index. *)
Definition index {A : Type} (l : list A) (i : nat) : result A :=
  match nth_error l i with
  | Some a => Ok a
  | None => Raise IndexError
  end.

(** ** The convention table (lines 40-52) *)

Record ConventionEntry : Type := { table : string; factor : Q }.

Local Open Scope string_scope.

(** The dictionary literal, entry by entry and in the order of the source.
    A factor is the quotient the source writes ([3/2], [4/7], ...), kept as
    a rational. *)
Definition conventions : list (string * ConventionEntry) :=
  [ ("K",    {| table := "K1"; factor := 1 |});
    ("L1",   {| table := "L1"; factor := 1 |});
    ("L2,3", {| table := "L3"; factor := 3 # 2 |});
    ("L2",   {| table := "L3"; factor := 1 # 2 |});
    ("L3",   {| table := "L3"; factor := 1 |});
    ("M1",   {| table := "M1"; factor := 1 |});
    ("M2,3", {| table := "M3"; factor := 3 # 2 |});
    ("M2",   {| table := "M3"; factor := 1 # 2 |});
    ("M3",   {| table := "M3"; factor := 1 |});
    ("M4,5", {| table := "M5"; factor := 5 # 3 |});
    ("M4",   {| table := "M5"; factor := 2 # 3 |});
    ("M5",   {| table := "M5"; factor := 1 |});
    ("N1",   {| table := "N1"; factor := 1 |});
    ("N2,3", {| table := "N3"; factor := 3 # 2 |});
    ("N2",   {| table := "N3"; factor := 1 # 2 |});
    ("N3",   {| table := "N3"; factor := 1 |});
    ("N4,5", {| table := "N5"; factor := 5 # 3 |});
    ("N4",   {| table := "N5"; factor := 2 # 3 |});
    ("N5",   {| table := "N5"; factor := 1 |});
    ("N6,7", {| table := "N7"; factor := 7 # 4 |});
    ("N6",   {| table := "N7"; factor := 4 # 7 |});
    ("N7",   {| table := "N7"; factor := 1 |});
    ("O1",   {| table := "O1"; factor := 1 |});
    ("O2,3", {| table := "O3"; factor := 3 # 2 |});
    ("O2",   {| table := "O3"; factor := 1 # 2 |});
    ("O3",   {| table := "O3"; factor := 1 |});
    ("O4,5", {| table := "O5"; factor := 5 # 3 |});
    ("O4",   {| table := "O5"; factor := 2 # 3 |});
    ("O5",   {| table := "O5"; factor := 1 |}) ].

Definition convention_keys : list string := map fst conventions.

Fixpoint lookup {V : Type} (k : string) (d : list (string * V)) : option V :=
  match d with
  | [] => None
  | (k', v) :: d' => if String.eqb k k' then Some v else lookup k d'
  end.

(** [conventions[subshell]]: a missing key raises [KeyError]. *)
Definition conventions_get (subshell : string) : result ConventionEntry :=
  match lookup subshell conventions with
  | Some e => Ok e
  | None => Raise (KeyError subshell)
  end.

(** *** Edge families

    A combined label such as ["L2,3"] names the two edges ["L2"] and
    ["L3"]: the text before the comma is the first member, and the shell
    letter followed by the text after the comma is the second. *)
Fixpoint split_at_comma (s : string) : option (string * string) :=
  match s with
  | EmptyString => None
  | String c s' =>
      if Ascii.eqb c ","%char then Some (EmptyString, s')
      else match split_at_comma s' with
           | Some (a, b) => Some (String c a, b)
           | None => None
           end
  end.

Definition family_members (label : string) : option (string * string) :=
  match label, split_at_comma label with
  | String shell _, Some (first, second) => Some (first, String shell second)
  | _, _ => None
  end.

(** The factor of a combined label is the sum of its members' factors. *)
Definition family_sum_ok (label : string) : bool :=
  match family_members label with
  | Some (m1, m2) =>
      match lookup label conventions, lookup m1 conventions, lookup m2 conventions with
      | Some e, Some e1, Some e2 => Qeq_bool (factor e) (factor e1 + factor e2)
      | _, _, _ => false
      end
  | None => true
  end.

Definition families : list string :=
  filter (fun k => match family_members k with Some _ => true | None => false end)
         convention_keys.

(** ** Strings: the two splits the program performs *)

(** [s.split(sep)] for a one-character separator. *)
Fixpoint split_on (sep : ascii) (s : string) : list string :=
  match s with
  | EmptyString => [EmptyString]
  | String c s' =>
      if Ascii.eqb c sep then EmptyString :: split_on sep s'
      else match split_on sep s' with
           | t :: ts => String c t :: ts
           | [] => [String c EmptyString]
           end
  end.

(** The number of occurrences of [c] in [s]. *)
Fixpoint count_char (c : ascii) (s : string) : nat :=
  match s with
  | EmptyString => 0
  | String c' s' => (if Ascii.eqb c' c then 1 else 0) + count_char c s'
  end.

(** The characters [str.split()] treats as white space, among the first
    128 code points. *)
Definition is_space (c : ascii) : bool :=
  let n := nat_of_ascii c in
  ((9 <=? n)%nat && (n <=? 13)%nat) || ((28 <=? n)%nat && (n <=? 32)%nat).

Fixpoint tokens_from (s : string) (cur : option string) : list string :=
  match s with
  | EmptyString => match cur with Some t => [t] | None => [] end
  | String c s' =>
      if is_space c then
        match cur with
        | Some t => t :: tokens_from s' None
        | None => tokens_from s' None
        end
      else
        tokens_from s' (Some (match cur with
                              | Some t => t ++ String c EmptyString
                              | None => String c EmptyString
                              end))
  end.

(** [s.split()]: the maximal runs of characters that are not white space. *)
Definition py_split (s : string) : list string := tokens_from s None.

(** [s.replace('\r', '')]. *)
Fixpoint remove_cr (s : string) : string :=
  match s with
  | EmptyString => EmptyString
  | String c s' =>
      if Ascii.eqb c (ascii_of_nat 13) then remove_cr s' else String c (remove_cr s')
  end.

(** ** The object *)

(** The attributes an instance can carry; [None] is an attribute that has
    not been assigned.  [energy_shift] and [qint] are assigned by
    [integrateq] only. *)
Record HartreeSlaterGOS : Type := mkGOS {
  _whitelist : option (list string);
  element : option string;
  subshell : option string;
  onset_energy : option R;
  subshell_factor : option Q;
  gos_array : option (list (list R));
  rel_energy_axis : option (list R);
  qaxis : option (list R);
  energy_axis : option (list R);
  energy_shift : option R;
  qint : option (list R) }.

Definition new_object : HartreeSlaterGOS :=
  mkGOS None None None None None None None None None None None.

Definition set__whitelist (v : list string) (o : HartreeSlaterGOS) :=
  mkGOS (Some v) (element o) (subshell o) (onset_energy o) (subshell_factor o)
        (gos_array o) (rel_energy_axis o) (qaxis o) (energy_axis o)
        (energy_shift o) (qint o).
Definition set_element (v : string) (o : HartreeSlaterGOS) :=
  mkGOS (_whitelist o) (Some v) (subshell o) (onset_energy o) (subshell_factor o)
        (gos_array o) (rel_energy_axis o) (qaxis o) (energy_axis o)
        (energy_shift o) (qint o).
Definition set_subshell (v : string) (o : HartreeSlaterGOS) :=
  mkGOS (_whitelist o) (element o) (Some v) (onset_energy o) (subshell_factor o)
        (gos_array o) (rel_energy_axis o) (qaxis o) (energy_axis o)
        (energy_shift o) (qint o).
Definition set_onset_energy (v : R) (o : HartreeSlaterGOS) :=
  mkGOS (_whitelist o) (element o) (subshell o) (Some v) (subshell_factor o)
        (gos_array o) (rel_energy_axis o) (qaxis o) (energy_axis o)
        (energy_shift o) (qint o).
Definition set_subshell_factor (v : Q) (o : HartreeSlaterGOS) :=
  mkGOS (_whitelist o) (element o) (subshell o) (onset_energy o) (Some v)
        (gos_array o) (rel_energy_axis o) (qaxis o) (energy_axis o)
        (energy_shift o) (qint o).
Definition set_gos_array (v : list (list R)) (o : HartreeSlaterGOS) :=
  mkGOS (_whitelist o) (element o) (subshell o) (onset_energy o) (subshell_factor o)
        (Some v) (rel_energy_axis o) (qaxis o) (energy_axis o)
        (energy_shift o) (qint o).
Definition set_rel_energy_axis (v : list R) (o : HartreeSlaterGOS) :=
  mkGOS (_whitelist o) (element o) (subshell o) (onset_energy o) (subshell_factor o)
        (gos_array o) (Some v) (qaxis o) (energy_axis o)
        (energy_shift o) (qint o).
Definition set_qaxis (v : list R) (o : HartreeSlaterGOS) :=
  mkGOS (_whitelist o) (element o) (subshell o) (onset_energy o) (subshell_factor o)
        (gos_array o) (rel_energy_axis o) (Some v) (energy_axis o)
        (energy_shift o) (qint o).
Definition set_energy_axis (v : list R) (o : HartreeSlaterGOS) :=
  mkGOS (_whitelist o) (element o) (subshell o) (onset_energy o) (subshell_factor o)
        (gos_array o) (rel_energy_axis o) (qaxis o) (Some v)
        (energy_shift o) (qint o).
Definition set_energy_shift (v : R) (o : HartreeSlaterGOS) :=
  mkGOS (_whitelist o) (element o) (subshell o) (onset_energy o) (subshell_factor o)
        (gos_array o) (rel_energy_axis o) (qaxis o) (energy_axis o)
        (Some v) (qint o).
Definition set_qint (v : list R) (o : HartreeSlaterGOS) :=
  mkGOS (_whitelist o) (element o) (subshell o) (onset_energy o) (subshell_factor o)
        (gos_array o) (rel_energy_axis o) (qaxis o) (energy_axis o)
        (energy_shift o) (Some v).

(** The keys of [self._whitelist] (lines 100-105). *)
Definition whitelist_keys : list string :=
  ["gos_array"; "rel_energy_axis"; "qaxis"; "element"; "subshell"].

(** A dictionary exported by [as_dictionary]: the whitelisted keys, each
    of which may be missing. *)
Record dictionary : Type := {
  dict_gos_array : option (list (list R));
  dict_rel_energy_axis : option (list R);
  dict_qaxis : option (list R);
  dict_element : option string;
  dict_subshell : option string }.

Inductive element_subshell_arg : Type :=
| FromString (s : string)
| FromDict (d : dictionary).

(** [d[key]] on the exported dictionary. *)
Definition dict_get {A : Type} (key : string) (v : option A) : result A :=
  match v with
  | Some a => Ok a
  | None => Raise (KeyError key)
  end.

(** ** Effects of the constructor

    What the constructor does to the outside world, in the order in which
    it does it. *)
Inductive event : Type :=
| LogInfo
| IsDir (path : string)
| OpenFile (path : string).

Definition is_file_event (e : event) : bool :=
  match e with
  | LogInfo => false
  | IsDir _ | OpenFile _ => true
  end.

Definition io (A : Type) : Type := (list event * result A)%type.

Definition io_bind {A B : Type} (c : io A) (k : A -> io B) : io B :=
  match c with
  | (tr, Ok a) => let (tr', r) := k a in ((tr ++ tr')%list, r)
  | (tr, Raise e) => (tr, Raise e)
  | (tr, NonFinite) => (tr, NonFinite)
  end.

Definition pure {A : Type} (c : result A) : io A := ([], c).
Definition emit (e : event) : io unit := ([e], Ok tt).

Arguments io_bind : simpl never.
Arguments pure : simpl never.
Arguments emit : simpl never.

Declare Scope io_scope.
Delimit Scope io_scope with io.
Notation "x <- c ;; k" := (io_bind c (fun x => k))
  (at level 61, c at next level, right associativity) : io_scope.
Notation "' p <- c ;; k" := (io_bind c (fun p => k))
  (at level 61, p pattern, c at next level, right associativity) : io_scope.

(** ** Reading a table (lines 159-173) *)

Record gos_header : Type := {
  info1_1 : R; info1_2 : R; ncol : Z;
  info2_1 : R; info2_2 : R; nrow : Z }.

(** [nrow] rows of [ncol] consecutive entries of [flat]. *)
Definition rows_of (flat : list R) (nrow ncol : nat) : list (list R) :=
  map (fun i => firstn ncol (skipn (i * ncol) flat)) (seq 0 nrow).

(** [flat.reshape(nrow, ncol)] of numpy, row-major.  A negative dimension
    is an unknown one: it is inferred from the size of the array and the
    other dimension, and there can be one only (numpy documents [-1]). *)
Definition reshape (flat : list R) (nrow ncol : Z) : result (list (list R)) :=
  let size := Z.of_nat (List.length flat) in
  if (nrow <? 0)%Z then
    if (ncol <? 0)%Z then Raise ValueError
    else if (ncol =? 0)%Z || negb (size mod ncol =? 0)%Z then Raise ValueError
    else Ok (rows_of flat (Z.to_nat (size / ncol)) (Z.to_nat ncol))
  else if (ncol <? 0)%Z then
    if (nrow =? 0)%Z || negb (size mod nrow =? 0)%Z then Raise ValueError
    else Ok (rows_of flat (Z.to_nat nrow) (Z.to_nat (size / nrow)))
  else if (size =? nrow * ncol)%Z then
    Ok (rows_of flat (Z.to_nat nrow) (Z.to_nat ncol))
  else Raise ValueError.

Fixpoint map_result {A B : Type} (f : A -> result B) (l : list A) : result (list B) :=
  match l with
  | [] => Ok []
  | a :: l' => (b <- f a ;; bs <- map_result f l' ;; Ok (b :: bs))%result
  end.

(** ** Real arithmetic as the program performs it *)

Local Open Scope R_scope.

(** [x / y] on Python floats raises [ZeroDivisionError] for [y = 0]. *)
Definition py_div (x y : R) : result R :=
  if Req_dec_T y 0 then Raise ZeroDivisionError else Ok (x / y).

(** [x / y] on numpy values warns and returns an infinity or NaN. *)
Definition np_div (x y : R) : result R :=
  if Req_dec_T y 0 then NonFinite else Ok (x / y).

(** [np.sqrt] returns NaN for a negative argument. *)
Definition np_sqrt (x : R) : result R :=
  if Rlt_dec x 0 then NonFinite else Ok (sqrt x).

(** [math.sqrt] raises [ValueError] for a negative argument. *)
Definition math_sqrt (x : R) : result R :=
  if Rlt_dec x 0 then Raise ValueError else Ok (sqrt x).

(** [np.log] returns minus infinity at 0 and NaN below. *)
Definition np_log (x : R) : result R :=
  if Rle_dec x 0 then NonFinite else Ok (ln x).

(** ** What the file takes from elsewhere

    The builtins, the physical constants of [scipy.constants], the
    preferences and the file system, the methods of the base class
    [GOSBase] and the functions of [hyperspy.misc.export_dictionary], none
    of which is among the sources, and the two functions of scipy.  The
    program is embedded once, for every such environment. *)
Class Externals : Type := {
  (** [float(tok)] and [int(tok)]; [None] when they raise [ValueError]. *)
  py_float : string -> option R;
  py_int : string -> option Z;
  (** [R] (line 34) and [a0] (line 35), two positive constants. *)
  Rydberg : R;
  a0 : R;
  Rydberg_pos : 0 < Rydberg;
  a0_pos : 0 < a0;
  (** [preferences.EELS.eels_gos_files_path], [Path.is_dir] and the text
      of a file ([None]: it cannot be opened). *)
  eels_gos_files_path : string;
  is_dir : string -> bool;
  read_text : string -> option string;
  (** [GOSBase.read_elements]: from the element and the subshell it either
      raises or finds the onset energy, which it assigns. *)
  GOSBase_read_elements : string -> string -> result R;
  get_parametrized_energy_axis : R -> R -> Z -> result (list R);
  get_parametrized_qaxis : R -> R -> Z -> result (list R);
  load_from_dictionary : HartreeSlaterGOS -> dictionary -> result HartreeSlaterGOS;
  (** [GOSBase.get_qaxis_and_gos(ienergy, qmin, qmax)], which reads
      [self.qaxis] and [self.gos_array] (docstring, lines 72-75). *)
  get_qaxis_and_gos :
    list R -> list (list R) -> nat -> R -> R -> result (list R * list R);
  (** [scipy.integrate.simps(y, x)] and
      [scipy.interpolate.interp1d(x, y, kind=3)]. *)
  interpolant : Type;
  simps : list R -> list R -> result R;
  interp1d : list R -> list R -> result interpolant }.

Section Program.

Context {ext : Externals}.

(** *** Construction *)

Definition to_float (tok : string) : result R :=
  match py_float tok with Some x => Ok x | None => Raise ValueError end.

Definition to_int (tok : string) : result Z :=
  match py_int tok with Some n => Ok n | None => Raise ValueError end.

(** Lines 163-172, on the token list [GOS_list]. *)
Definition parse_gos_list (GOS_list : list string)
  : result (gos_header * list (list R)) :=
  (t2 <- index GOS_list 2 ;; i11 <- to_float t2 ;;
   t3 <- index GOS_list 3 ;; i12 <- to_float t3 ;;
   t5 <- index GOS_list 5 ;; nc <- to_int t5 ;;
   t6 <- index GOS_list 6 ;; i21 <- to_float t6 ;;
   t7 <- index GOS_list 7 ;; i22 <- to_float t7 ;;
   t8 <- index GOS_list 8 ;; nr <- to_int t8 ;;
   flat <- map_result to_float (skipn 9 GOS_list) ;;
   gos <- reshape flat nr nc ;;
   Ok ({| info1_1 := i11; info1_2 := i12; ncol := nc;
          info2_1 := i21; info2_2 := i22; nrow := nr |},
       map (map (fun x => x / Rydberg)) gos))%result.

(** The token at position [k] exists and [float], or [int], reads it as
    the given number. *)
Definition float_at (toks : list string) (k : nat) (x : R) : Prop :=
  exists tok, nth_error toks k = Some tok /\ py_float tok = Some x.

Definition int_at (toks : list string) (k : nat) (n : Z) : Prop :=
  exists tok, nth_error toks k = Some tok /\ py_int tok = Some n.

(** The header [h] and the matrix [g] are laid out in [toks] as the
    program reads them: the coefficients of the q-axis at 2 and 3, the
    number of columns at 5, the coefficients of the energy axis at 6 and 7,
    the number of rows at 8, and every token from 9 on a number; for counts
    that are not negative, 9 + N*M tokens and the matrix row by row, each
    entry divided by the Rydberg energy. *)
Definition token_layout (toks : list string) (h : gos_header) (g : list (list R))
  : Prop :=
  float_at toks 2 (info1_1 h) /\ float_at toks 3 (info1_2 h)
  /\ int_at toks 5 (ncol h)
  /\ float_at toks 6 (info2_1 h) /\ float_at toks 7 (info2_2 h)
  /\ int_at toks 8 (nrow h)
  /\ (forall k tok, (9 <= k)%nat -> nth_error toks k = Some tok ->
        py_float tok <> None)
  /\ ((0 <= nrow h)%Z -> (0 <= ncol h)%Z ->
      Z.of_nat (List.length toks) = (9 + nrow h * ncol h)%Z
      /\ List.length g = Z.to_nat (nrow h)
      /\ forall i j, (i < Z.to_nat (nrow h))%nat -> (j < Z.to_nat (ncol h))%nat ->
           exists row x,
             nth_error g i = Some row
             /\ float_at toks (9 + (i * Z.to_nat (ncol h) + j)) x
             /\ nth_error row j = Some (x / Rydberg)).

(** [gos_root.joinpath(name)] for a relative [name]. *)
Definition joinpath (root name : string) : string :=
  (root ++ "/" ++ name)%string.

(** [array + scalar]. *)
Definition add_scalar (a : list R) (x : R) : list R := map (fun e => e + x) a.

(** Lines 131-180. *)
Definition readgosfile (self : HartreeSlaterGOS) : io HartreeSlaterGOS :=
  (_ <- pure (_ <- attr "element" (element self) ;;
              _ <- attr "subshell" (subshell self) ;;
              _ <- attr "onset_energy" (onset_energy self) ;; Ok tt)%result ;;
   _ <- emit LogInfo ;;
   el <- pure (attr "element" (element self)) ;;
   sub <- pure (attr "subshell" (subshell self)) ;;
   e <- pure (conventions_get sub) ;;
   let gos_root := eels_gos_files_path in
   let gos_file := joinpath gos_root (el ++ "." ++ table e)%string in
   _ <- emit (IsDir gos_root) ;;
   if negb (is_dir gos_root) then pure (Raise FileNotFoundError)
   else
     _ <- emit (OpenFile gos_file) ;;
     content <- pure (match read_text gos_file with
                      | Some c => Ok c
                      | None => Raise FileNotFoundError
                      end) ;;
     let GOS_list := py_split (remove_cr content) in
     ' (h, gos) <- pure (parse_gos_list GOS_list) ;;
     let self := set_gos_array gos self in
     rel <- pure (get_parametrized_energy_axis (info2_1 h) (info2_2 h) (nrow h)) ;;
     let self := set_rel_energy_axis rel self in
     q <- pure (get_parametrized_qaxis (info1_1 h) (info1_2 h) (ncol h)) ;;
     let self := set_qaxis q self in
     rel' <- pure (attr "rel_energy_axis" (rel_energy_axis self)) ;;
     onset <- pure (attr "onset_energy" (onset_energy self)) ;;
     pure (Ok (set_energy_axis (add_scalar rel' onset) self)))%io.

(** Lines 116-118. *)
Definition _load_dictionary (self : HartreeSlaterGOS) (d : dictionary)
  : result HartreeSlaterGOS :=
  (self <- load_from_dictionary self d ;;
   rel <- attr "rel_energy_axis" (rel_energy_axis self) ;;
   onset <- attr "onset_energy" (onset_energy self) ;;
   Ok (set_energy_axis (add_scalar rel onset) self))%result.

(** Lines 127-129: the base method first, then the convention table. *)
Definition read_elements (self : HartreeSlaterGOS) : result HartreeSlaterGOS :=
  (el <- attr "element" (element self) ;;
   sub <- attr "subshell" (subshell self) ;;
   onset <- GOSBase_read_elements el sub ;;
   let self := set_onset_energy onset self in
   sub' <- attr "subshell" (subshell self) ;;
   e <- conventions_get sub' ;;
   Ok (set_subshell_factor (factor e) self))%result.

(** Lines 91-114.  Unpacking [element_subshell.split('_')] into two names
    raises [ValueError] unless the split has exactly two parts. *)
Definition __init__ (element_subshell : element_subshell_arg) : io HartreeSlaterGOS :=
  let self := set__whitelist whitelist_keys new_object in
  match element_subshell with
  | FromDict d =>
      (el <- pure (dict_get "element" (dict_element d)) ;;
       let self := set_element el self in
       sub <- pure (dict_get "subshell" (dict_subshell d)) ;;
       let self := set_subshell sub self in
       self <- pure (read_elements self) ;;
       pure (_load_dictionary self d))%io
  | FromString s =>
      match split_on "_" s with
      | [el; sub] =>
          (self <- pure (read_elements (set_subshell sub (set_element el self))) ;;
           readgosfile self)%io
      | _ => pure (Raise ValueError)
      end
  end.

(** The names the constructor takes from its argument. *)
Definition requested_element (arg : element_subshell_arg) : option string :=
  match arg with
  | FromDict d => dict_element d
  | FromString s =>
      match split_on "_" s with
      | [el; _] => Some el
      | _ => None
      end
  end.

Definition requested_subshell (arg : element_subshell_arg) : option string :=
  match arg with
  | FromDict d => dict_subshell d
  | FromString s =>
      match split_on "_" s with
      | [_; sub] => Some sub
      | _ => None
      end
  end.

(** *** Integration over the momentum transfer (lines 182-210) *)

(** Line 189. *)
Definition kinetic_T (gamma : R) : result R :=
  (q <- py_div 1 (gamma ^ 2) ;; Ok (511060 * (1 - q) / 2))%result.

(** Lines 193-200: the limits of the integral at the energy loss [E].
    The outcome [NonFinite] is that of the first numpy operation that
    leaves the reals; what [math.sqrt] then does with the NaN, and with a
    negative [qa0sqmin] (it raises [ValueError], line 199), is not
    followed. *)
Definition q_limits (angle gamma T E : R) : result (R * R) :=
  (a <- np_div (E ^ 2) (4 * Rydberg * T) ;;
   b <- np_div (E ^ 3) (8 * gamma ^ 3 * Rydberg * T ^ 2) ;;
   let qa0sqmin := a + b in
   p02 <- py_div T (Rydberg * (1 - 2 * T / 511060)) ;;
   let pp2 := p02 - E / Rydberg * (gamma - E / 1022120) in
   s <- np_sqrt (p02 * pp2) ;;
   let qa0sqmax := qa0sqmin + 4 * s * (sin (angle / 2)) ^ 2 in
   rmin <- math_sqrt qa0sqmin ;;
   let qmin := rmin / a0 in
   rmax <- math_sqrt qa0sqmax ;;
   let qmax := rmax / a0 in
   Ok (qmin, qmax))%result.

(** Lines 191-204: the body of the loop, up to the value stored in
    [qint[i]]. *)
Definition integrateq_row (self : HartreeSlaterGOS)
  (energy_shift angle gamma T : R) (i : nat) : result R :=
  (energy_axis <- attr "energy_axis" (energy_axis self) ;;
   Ei <- index energy_axis i ;;
   let E := Ei + energy_shift in
   ' (qmin, qmax) <- q_limits angle gamma T E ;;
   gos_array <- attr "gos_array" (gos_array self) ;;
   qaxis <- attr "qaxis" (qaxis self) ;;
   ' (qaxis, gos) <- get_qaxis_and_gos qaxis gos_array i qmin qmax ;;
   logsqa0qaxis <- map_result (fun q => np_log ((a0 * q) ^ 2)) qaxis ;;
   simps gos logsqa0qaxis)%result.

(** [qint[i] = v]. *)
Definition list_set (l : list R) (i : nat) (v : R) : result (list R) :=
  if (i <? List.length l)%nat
  then Ok (firstn i l ++ v :: skipn (S i) l)%list
  else Raise IndexError.

(** The loop of line 190 over the row indices [rows], on the array
    [qint]. *)
Fixpoint integrateq_loop (row : nat -> result R) (rows : list nat)
  (qint : list R) : result (list R) :=
  match rows with
  | [] => Ok qint
  | i :: rows' =>
      (v <- row i ;;
       qint' <- list_set qint i v ;;
       integrateq_loop row rows' qint')%result
  end.

(** Line 207: [qint *= (4.0 * np.pi * a0 ** 2.0 * R ** 2 / E / T * f) * 1e28]
    for the array [E]. *)
Definition scale_qint (E qint : list R) (T f : R) : result (list R) :=
  (scale <- map_result
              (fun Ej => c1 <- np_div (4 * PI * a0 ^ 2 * Rydberg ^ 2) Ej ;;
                         c2 <- np_div c1 T ;;
                         Ok (c2 * f * 1e28)) E ;;
   Ok (map (fun qs => fst qs * snd qs) (combine qint scale)))%result.

(** Lines 185-208: the shifted energy axis and the scaled [qint]. *)
Definition integrateq_qint (self : HartreeSlaterGOS)
  (energy_shift angle E0 : R) : result (list R * list R) :=
  (energy_axis <- attr "energy_axis" (energy_axis self) ;;
   let qint := repeat 0 (List.length energy_axis) in
   let gamma := 1 + E0 / 511.06 in
   T <- kinetic_T gamma ;;
   gos_array <- attr "gos_array" (gos_array self) ;;
   qint <- integrateq_loop (integrateq_row self energy_shift angle gamma T)
                           (seq 0 (List.length gos_array)) qint ;;
   let E := add_scalar energy_axis energy_shift in
   f <- attr "subshell_factor" (subshell_factor self) ;;
   qint <- scale_qint E qint T (Q2R f) ;;
   Ok (E, qint))%result.

(** Lines 182-210.  The object after the call, and what the call returns
    or raises.  With the outcome [NonFinite] the object is given as line
    184 leaves it: the array with a NaN or an infinity that line 209 may
    then store in [qint] is not followed. *)
Definition integrateq (self : HartreeSlaterGOS) (onset_energy' angle E0 : R)
  : HartreeSlaterGOS * result interpolant :=
  match attr "onset_energy" (onset_energy self) with
  | Ok self_onset_energy =>
      let energy_shift := onset_energy' - self_onset_energy in
      let self := set_energy_shift energy_shift self in
      match integrateq_qint self energy_shift angle E0 with
      | Ok (E, qint) => (set_qint qint self, interp1d E qint)
      | Raise e => (self, Raise e)
      | NonFinite => (self, NonFinite)
      end
  | Raise e => (self, Raise e)
  | NonFinite => (self, NonFinite)
  end.

End Program.

(** ** The integration as the specification states it (4.3)

    The formulas of the specification over the reals, the condition under
    which each of their operations is defined, and the algorithm built from
    them: a map over the rows, where the program runs a loop that stores
    into an array. *)

Definition to_option {A : Type} (r : result A) : option A :=
  match r with
  | Ok a => Some a
  | Raise _ | NonFinite => None
  end.

Definition obind {A B : Type} (c : option A) (k : A -> option B) : option B :=
  match c with
  | Some a => k a
  | None => None
  end.

Fixpoint map_option {A B : Type} (f : A -> option B) (l : list A) : option (list B) :=
  match l with
  | [] => Some []
  | a :: l' => obind (f a) (fun b => obind (map_option f l') (fun bs => Some (b :: bs)))
  end.

(** The table of the specification's data model (section 3). *)
Record GOSTable : Type := {
  table_element : string;
  table_subshell : string;
  onsetEnergy : R;
  relativeEnergyAxis : list R;
  energyAxis : list R;
  qAxis : list R;
  gos : list (list R);
  subshellFactor : Q }.

(** The table an object holds, once its eight attributes are assigned. *)
Definition table_of (self : HartreeSlaterGOS) : option GOSTable :=
  match element self, subshell self, onset_energy self, rel_energy_axis self,
        energy_axis self, qaxis self, gos_array self, subshell_factor self with
  | Some el, Some sub, Some onset, Some rel, Some ea, Some q, Some g, Some f =>
      Some {| table_element := el; table_subshell := sub; onsetEnergy := onset;
              relativeEnergyAxis := rel; energyAxis := ea; qAxis := q;
              gos := g; subshellFactor := f |}
  | _, _, _, _, _, _, _, _ => None
  end.

Section Specification.

Context {ext : Externals}.

Definition spec_gamma (beamEnergy : R) : R := 1 + beamEnergy / 511.06.

Definition spec_T (beamEnergy : R) : R :=
  511060 * (1 - 1 / (spec_gamma beamEnergy) ^ 2) / 2.

Definition spec_qa0sqmin (beamEnergy E : R) : R :=
  E ^ 2 / (4 * Rydberg * spec_T beamEnergy)
  + E ^ 3 / (8 * (spec_gamma beamEnergy) ^ 3 * Rydberg * (spec_T beamEnergy) ^ 2).

Definition spec_p02 (beamEnergy : R) : R :=
  spec_T beamEnergy / (Rydberg * (1 - 2 * spec_T beamEnergy / 511060)).

Definition spec_pp2 (beamEnergy E : R) : R :=
  spec_p02 beamEnergy - (E / Rydberg) * (spec_gamma beamEnergy - E / 1022120).

Definition spec_qa0sqmax (beamEnergy collectionHalfAngle E : R) : R :=
  spec_qa0sqmin beamEnergy E
  + 4 * sqrt (spec_p02 beamEnergy * spec_pp2 beamEnergy E)
      * (sin (collectionHalfAngle / 2)) ^ 2.

Definition spec_qmin (beamEnergy E : R) : R :=
  sqrt (spec_qa0sqmin beamEnergy E) / a0.

Definition spec_qmax (beamEnergy collectionHalfAngle E : R) : R :=
  sqrt (spec_qa0sqmax beamEnergy collectionHalfAngle E) / a0.

(** The barn conversion at the shifted energy [E]. *)
Definition spec_scale (beamEnergy : R) (f : R) (E : R) : R :=
  4 * PI * a0 ^ 2 * Rydberg ^ 2 / (E * spec_T beamEnergy) * f * 1e28.

(** Every division of the kinematics has a divisor other than 0, and
    every square root an argument that is not negative. *)
Definition spec_defined (beamEnergy collectionHalfAngle E : R) : Prop :=
  (spec_gamma beamEnergy) ^ 2 <> 0
  /\ 4 * Rydberg * spec_T beamEnergy <> 0
  /\ 8 * (spec_gamma beamEnergy) ^ 3 * Rydberg * (spec_T beamEnergy) ^ 2 <> 0
  /\ Rydberg * (1 - 2 * spec_T beamEnergy / 511060) <> 0
  /\ 0 <= spec_p02 beamEnergy * spec_pp2 beamEnergy E
  /\ 0 <= spec_qa0sqmin beamEnergy E
  /\ 0 <= spec_qa0sqmax beamEnergy collectionHalfAngle E.

Definition spec_defined_dec (beamEnergy collectionHalfAngle E : R)
  : {spec_defined beamEnergy collectionHalfAngle E}
    + {~ spec_defined beamEnergy collectionHalfAngle E}.
Proof.
  unfold spec_defined.
  destruct (Req_dec_T ((spec_gamma beamEnergy) ^ 2) 0); [right; tauto|].
  destruct (Req_dec_T (4 * Rydberg * spec_T beamEnergy) 0); [right; tauto|].
  destruct (Req_dec_T (8 * (spec_gamma beamEnergy) ^ 3 * Rydberg
                       * (spec_T beamEnergy) ^ 2) 0); [right; tauto|].
  destruct (Req_dec_T (Rydberg * (1 - 2 * spec_T beamEnergy / 511060)) 0);
    [right; tauto|].
  destruct (Rle_dec 0 (spec_p02 beamEnergy * spec_pp2 beamEnergy E));
    [|right; tauto].
  destruct (Rle_dec 0 (spec_qa0sqmin beamEnergy E)); [|right; tauto].
  destruct (Rle_dec 0 (spec_qa0sqmax beamEnergy collectionHalfAngle E));
    [|right; tauto].
  left; tauto.
Defined.

(** Step 2: the limits of the integral at the energy loss [E]. *)
Definition spec_q_range (beamEnergy collectionHalfAngle E : R) : option (R * R) :=
  if spec_defined_dec beamEnergy collectionHalfAngle E
  then Some (spec_qmin beamEnergy E, spec_qmax beamEnergy collectionHalfAngle E)
  else None.

(** Step 4: [x = ln((a0 q)^2)] for each sample. *)
Definition spec_log_grid (qs : list R) : option (list R) :=
  map_option (fun q => if Rle_dec ((a0 * q) ^ 2) 0 then None
                       else Some (ln ((a0 * q) ^ 2))) qs.

(** Steps 1 to 5 for the row [i]. *)
Definition spec_row (t : GOSTable)
  (onsetEnergyOverride collectionHalfAngle beamEnergy : R) (i : nat) : option R :=
  let energyShift := onsetEnergyOverride - onsetEnergy t in
  obind (nth_error (energyAxis t) i) (fun Ei =>
  let E := Ei + energyShift in
  obind (spec_q_range beamEnergy collectionHalfAngle E) (fun range =>
  obind (to_option (get_qaxis_and_gos (qAxis t) (gos t) i (fst range) (snd range)))
        (fun samples =>
  obind (spec_log_grid (fst samples)) (fun x =>
  to_option (simps (snd samples) x))))).

(** The scaling after the loop, entry by entry. *)
Definition spec_scaled (beamEnergy : R) (f : R) (qint shiftedEnergyAxis : list R)
  : option (list R) :=
  map_option (fun qE => if Req_dec_T (snd qE * spec_T beamEnergy) 0 then None
                        else Some (fst qE * spec_scale beamEnergy f (snd qE)))
             (combine qint shiftedEnergyAxis).

(** [integrate(table, onsetEnergyOverride, collectionHalfAngle, beamEnergy)]:
    the cubic interpolant over the shifted energy axis and the scaled
    [qint], or nothing where a step is undefined or fails. *)
Definition spec_integrate (t : GOSTable)
  (onsetEnergyOverride collectionHalfAngle beamEnergy : R) : option interpolant :=
  let energyShift := onsetEnergyOverride - onsetEnergy t in
  let shiftedEnergyAxis := map (fun e => e + energyShift) (energyAxis t) in
  if Req_dec_T ((spec_gamma beamEnergy) ^ 2) 0 then None
  else
    obind (map_option (spec_row t onsetEnergyOverride collectionHalfAngle beamEnergy)
                      (seq 0 (List.length (gos t)))) (fun qint =>
    obind (spec_scaled beamEnergy (Q2R (subshellFactor t)) qint shiftedEnergyAxis)
          (fun scaled =>
    to_option (interp1d shiftedEnergyAxis scaled))).

End Specification.

(** ** The extraction of a row over a range of momentum transfer *)

(** [q] lies outside [[qAxis.min(), qAxis.max()]]; an empty axis tabulates
    no range at all. *)
Definition out_of_range (qAxis : list R) (q : R) : Prop :=
  match qAxis with
  | [] => True
  | q0 :: rest => q < fold_right Rmin q0 rest \/ fold_right Rmax q0 rest < q
  end.

Definition out_of_range_dec (qAxis : list R) (q : R)
  : {out_of_range qAxis q} + {~ out_of_range qAxis q}.
Proof.
  destruct qAxis as [|q0 rest]; simpl.
  - left; exact I.
  - destruct (Rlt_dec q (fold_right Rmin q0 rest)); [left; tauto|].
    destruct (Rlt_dec (fold_right Rmax q0 rest) q); [left; tauto|].
    right; tauto.
Defined.

(** The value at [q] of the piecewise linear function through [knots]. *)
Fixpoint linear_interpolation (knots : list (R * R)) (q : R) : option R :=
  match knots with
  | [] => None
  | (q1, g1) :: rest =>
      match rest with
      | [] => if Req_dec_T q q1 then Some g1 else None
      | (q2, g2) :: _ =>
          if Rle_dec q1 q then
            if Rle_dec q q2
            then Some (g1 + (g2 - g1) / (q2 - q1) * (q - q1))
            else linear_interpolation rest q
          else None
      end
  end.

Definition strictly_between (qmin qmax q : R) : bool :=
  if Rlt_dec qmin q then (if Rlt_dec q qmax then true else false) else false.

(** Modelled from the spec: [get_qaxis_and_gos] is a method of the base
    class [GOSBase] ([hyperspy/misc/eels/base_gos.py]), which is not among
    the sources; only its call (line 202) and its docstring (lines 72-75)
    are.  Step 3 of 4.3: the GOS values of row [i] across [[qmin, qmax]],
    with values synthesised at [qmin] and [qmax] by linear interpolation
    against the q-axis, and [QOutOfRangeError] when [qmin] or [qmax] falls
    outside [[qAxis.min(), qAxis.max()]]. *)
Definition GOSBase_get_qaxis_and_gos (qAxis : list R) (gos : list (list R))
  (i : nat) (qmin qmax : R) : result (list R * list R) :=
  if out_of_range_dec qAxis qmin then Raise QOutOfRangeError
  else if out_of_range_dec qAxis qmax then Raise QOutOfRangeError
  else
    (row <- index gos i ;;
     let knots := combine qAxis row in
     let inner := filter (fun k => strictly_between qmin qmax (fst k)) knots in
     match linear_interpolation knots qmin, linear_interpolation knots qmax with
     | Some gmin, Some gmax =>
         Ok ((qmin :: map fst inner ++ [qmax])%list,
             (gmin :: map snd inner ++ [gmax])%list)
     | _, _ => Raise ValueError
     end)%result.

(** ** A concrete environment

    Stand-ins for what the file takes from elsewhere, on which the
    program can be run: decimal literals for [float] and [int], one
    directory with two table files, and a titanium entry for the table of
    elements. *)
Module Example.

Definition digit_of (c : ascii) : option Z :=
  let n := nat_of_ascii c in
  if ((48 <=? n)%nat && (n <=? 57)%nat) then Some (Z.of_nat (n - 48)) else None.

Fixpoint digits_value (s : string) (acc : Z) : option Z :=
  match s with
  | EmptyString => Some acc
  | String c s' =>
      match digit_of c with
      | Some d => digits_value s' (10 * acc + d)%Z
      | None => None
      end
  end.

Definition unsigned_int (s : string) : option Z :=
  match s with
  | EmptyString => None
  | _ => digits_value s 0%Z
  end.

(** [int] on an optional sign followed by decimal digits. *)
Definition int_of_token (s : string) : option Z :=
  match s with
  | String "-" s' => option_map Z.opp (unsigned_int s')
  | String "+" s' => unsigned_int s'
  | _ => unsigned_int s
  end.

Fixpoint split_at_point (s : string) : string * option string :=
  match s with
  | EmptyString => (EmptyString, None)
  | String c s' =>
      if Ascii.eqb c "."%char then (EmptyString, Some s')
      else let (a, b) := split_at_point s' in (String c a, b)
  end.

Definition unsigned_float (s : string) : option R :=
  match split_at_point s with
  | (whole, None) => option_map IZR (unsigned_int whole)
  | (whole, Some frac) =>
      match unsigned_int whole, digits_value frac 0%Z with
      | Some w, Some f =>
          Some (IZR (w * 10 ^ Z.of_nat (String.length frac) + f)
                / IZR (10 ^ Z.of_nat (String.length frac)))
      | _, _ => None
      end
  end.

(** [float] on an optional sign, decimal digits and an optional fraction. *)
Definition float_of_token (s : string) : option R :=
  match s with
  | String "-" s' => option_map Ropp (unsigned_float s')
  | String "+" s' => unsigned_float s'
  | _ => unsigned_float s
  end.

Definition gos_root : string := "/gos".

(** A table of 3 rows and 4 columns, and one whose header declares -1
    rows of 2 columns before 4 values. *)
Definition Ti_L3 : string :=
  "Ti L3 0.05 0.1 q 4 0.5 0.02 3 1 1 1 1 1 1 1 1 1 1 1 1".

Definition Ti_K1 : string :=
  "Ti K1 0.05 0.1 q 2 0.5 0.02 -1 1 2 3 4".

Definition files : list (string * string) :=
  [ ("/gos/Ti.L3", Ti_L3); ("/gos/Ti.K1", Ti_K1) ].

Definition onset_of (el sub : string) : result R :=
  if String.eqb el "Ti" then Ok 456 else Raise ValueError.

(** Exponential grids through 0 with [n] points. *)
Definition energy_grid (k1 k2 : R) (n : Z) : result (list R) :=
  Ok (map (fun i => k1 * (exp (INR i * k2 / k1) - 1)) (seq 0 (Z.to_nat n))).

Definition q_grid (k1 k2 : R) (n : Z) : result (list R) :=
  Ok (map (fun i => k1 * (exp (INR i * k2) - 1) * 1e10) (seq 0 (Z.to_nat n))).

Definition load (self : HartreeSlaterGOS) (d : dictionary) : result HartreeSlaterGOS :=
  (g <- dict_get "gos_array" (dict_gos_array d) ;;
   rel <- dict_get "rel_energy_axis" (dict_rel_energy_axis d) ;;
   q <- dict_get "qaxis" (dict_qaxis d) ;;
   el <- dict_get "element" (dict_element d) ;;
   sub <- dict_get "subshell" (dict_subshell d) ;;
   Ok (set_subshell sub (set_element el
         (set_qaxis q (set_rel_energy_axis rel (set_gos_array g self))))))%result.

(** The composite trapezoid rule, in the place of scipy's quadrature. *)
Fixpoint trapezoid (y x : list R) : R :=
  match y, x with
  | y1 :: ((y2 :: _) as y'), x1 :: ((x2 :: _) as x') =>
      (x2 - x1) * (y1 + y2) / 2 + trapezoid y' x'
  | _, _ => 0
  end.

(** The Rydberg energy is the value the specification gives (4.3); an
    interpolant is kept as the samples it was built from. *)
#[export] Instance externals : Externals := {|
  py_float := float_of_token;
  py_int := int_of_token;
  Rydberg := 13.6057;
  a0 := 5.29177210903e-11;
  Rydberg_pos := ltac:(lra);
  a0_pos := ltac:(lra);
  eels_gos_files_path := gos_root;
  is_dir := fun p => String.eqb p gos_root;
  read_text := fun p => lookup p files;
  GOSBase_read_elements := onset_of;
  get_parametrized_energy_axis := energy_grid;
  get_parametrized_qaxis := q_grid;
  load_from_dictionary := load;
  get_qaxis_and_gos := GOSBase_get_qaxis_and_gos;
  interpolant := (list R * list R)%type;
  simps := fun y x => Ok (trapezoid y x);
  interp1d := fun x y => Ok (x, y) |}.

(** The table of the scenario of the specification (section 8). *)
Definition scenario : HartreeSlaterGOS :=
  mkGOS (Some whitelist_keys) (Some "Ti") (Some "L3") (Some 100) (Some 1%Q)
        (Some [[1; 1; 1; 1]; [1; 1; 1; 1]; [1; 1; 1; 1]])
        (Some [0; 10; 20]) (Some [1; 2; 3; 4]) (Some [100; 110; 120])
        None None.

Definition scenario_table : GOSTable :=
  {| table_element := "Ti"; table_subshell := "L3"; onsetEnergy := 100;
     relativeEnergyAxis := [0; 10; 20]; energyAxis := [100; 110; 120];
     qAxis := [1; 2; 3; 4];
     gos := [[1; 1; 1; 1]; [1; 1; 1; 1]; [1; 1; 1; 1]];
     subshellFactor := 1%Q |}.

(** One row over a q-axis wide enough for a beam of 100 keV. *)
Definition wide : HartreeSlaterGOS :=
  mkGOS (Some whitelist_keys) (Some "Ti") (Some "L3") (Some 100) (Some 1%Q)
        (Some [[1; 1]]) (Some [0]) (Some [0; 1e13]) (Some [100])
        None None.

Definition wide_table : GOSTable :=
  {| table_element := "Ti"; table_subshell := "L3"; onsetEnergy := 100;
     relativeEnergyAxis := [0]; energyAxis := [100];
     qAxis := [0; 1e13]; gos := [[1; 1]]; subshellFactor := 1%Q |}.

(** Two energies over a table of one row, and one energy under a table
    of two rows. *)
Definition one_row : HartreeSlaterGOS :=
  mkGOS (Some whitelist_keys) (Some "Ti") (Some "L3") (Some 100) (Some 1%Q)
        (Some [[1; 1]]) (Some [0; 10]) (Some [0; 1e13]) (Some [100; 110])
        None None.

Definition two_rows : HartreeSlaterGOS :=
  mkGOS (Some whitelist_keys) (Some "Ti") (Some "L3") (Some 100) (Some 1%Q)
        (Some [[1; 1]; [1; 1]]) (Some [0]) (Some [0; 1e13]) (Some [100])
        None None.

(** The same stand-ins over another file system: whether the directory
    of the tables exists, and the files it holds. *)
Definition environment (dir_exists : bool) (fs : list (string * string))
  : Externals := {|
  py_float := float_of_token;
  py_int := int_of_token;
  Rydberg := 13.6057;
  a0 := 5.29177210903e-11;
  Rydberg_pos := ltac:(lra);
  a0_pos := ltac:(lra);
  eels_gos_files_path := gos_root;
  is_dir := fun p => dir_exists && String.eqb p gos_root;
  read_text := fun p => lookup p fs;
  GOSBase_read_elements := onset_of;
  get_parametrized_energy_axis := energy_grid;
  get_parametrized_qaxis := q_grid;
  load_from_dictionary := load;
  get_qaxis_and_gos := GOSBase_get_qaxis_and_gos;
  interpolant := (list R * list R)%type;
  simps := fun y x => Ok (trapezoid y x);
  interp1d := fun x y => Ok (x, y) |}.

(** The object on which [readgosfile] is called for the string
    ["Ti_L3"]. *)
Definition Ti_L3_object : HartreeSlaterGOS :=
  mkGOS (Some whitelist_keys) (Some "Ti") (Some "L3") (Some 456) (Some 1%Q)
        None None None None None None.

End Example.

(** * Properties *)

(** ** The convention table *)

Lemma lookup_None_notin {V : Type} (k : string) (d : list (string * V)) :
  lookup k d = None <-> ~ In k (map fst d).
Proof.
  induction d as [|[k' v] d IH]; simpl.
  - tauto.
  - destruct (String.eqb_spec k k') as [->|Hne].
    + split; [discriminate | intros H; exfalso; apply H; now left].
    + rewrite IH. split.
      * intros H [Heq|Hin]; [now apply Hne | now apply H].
      * intros H Hin. apply H. now right.
Qed.

(** A label outside the table raises [KeyError] on that label. *)
Lemma conventions_get_unknown (subshell : string) :
  ~ In subshell convention_keys ->
  conventions_get subshell = Raise (KeyError subshell).
Proof.
  intros H. unfold conventions_get.
  apply lookup_None_notin in H. now rewrite H.
Qed.

Lemma convention_keys_NoDup : NoDup convention_keys.
Proof.
  unfold convention_keys; simpl.
  repeat (constructor;
          [simpl; intros H; repeat (destruct H as [H|H]; [discriminate H|]); exact H|]).
  constructor.
Qed.

(** In every family but N6,7 the factor of the combined label is the sum
    of the factors of its two members. *)
Lemma family_sum_ok_but_N67 (label : string) :
  In label families -> label <> "N6,7"%string -> family_sum_ok label = true.
Proof.
  unfold families; simpl.
  intros H Hne.
  repeat (destruct H as [H|H]; [subst label; try reflexivity; now elim Hne|]).
  contradiction.
Qed.

(** C2 (the code breaks it).  The factor of the combined label N6,7 is 7/4,
    whereas the factors of its members N6 and N7 are 4/7 and 1: the sum,
    11/7, is not the factor of the family. *)
Theorem conventions_N67_factor_not_sum :
  In "N6,7"%string families
  /\ family_members "N6,7" = Some ("N6"%string, "N7"%string)
  /\ (exists e e6 e7,
        conventions_get "N6,7" = Ok e /\ conventions_get "N6" = Ok e6
        /\ conventions_get "N7" = Ok e7
        /\ factor e = (7 # 4)%Q /\ factor e6 = (4 # 7)%Q /\ factor e7 = 1%Q
        /\ ~ (factor e == factor e6 + factor e7)%Q)
  /\ family_sum_ok "N6,7" = false.
Proof.
  split; [unfold families; simpl; tauto|].
  split; [reflexivity|].
  split; [|reflexivity].
  do 3 eexists. repeat (split; [reflexivity|]).
  simpl. intros H. discriminate H.
Qed.

(** ** Construction *)

Section ConstructionProperties.

Context {ext : Externals}.

Lemma io_bind_pure {A B : Type} (c : result A) (k : A -> io B) :
  io_bind (pure c) k
  = match c with
    | Ok a => k a
    | Raise e => ([], Raise e)
    | NonFinite => ([], NonFinite)
    end.
Proof.
  unfold io_bind, pure. destruct c; try reflexivity. now destruct (k a).
Qed.

Lemma io_bind_emit {B : Type} (e : event) (k : unit -> io B) :
  io_bind (emit e) k = (e :: fst (k tt), snd (k tt)).
Proof.
  unfold io_bind, emit. now destruct (k tt).
Qed.

(** With a label outside the table, [read_elements] ends where the base
    method ends, or else at the lookup in the table. *)
Lemma read_elements_unknown (self : HartreeSlaterGOS) (el sub : string) :
  element self = Some el -> subshell self = Some sub ->
  ~ In sub convention_keys ->
  read_elements self
  = match GOSBase_read_elements el sub with
    | Ok _ => Raise (KeyError sub)
    | Raise e => Raise e
    | NonFinite => NonFinite
    end.
Proof.
  intros Hel Hsub Hnot. unfold read_elements. rewrite Hel, Hsub. simpl.
  destruct (GOSBase_read_elements el sub); simpl; try reflexivity.
  rewrite Hsub. simpl. now rewrite (conventions_get_unknown Hnot).
Qed.

(** C9.  For a subshell label that is not a key of the convention table
    the lookup in the table raises [KeyError] on the label, and the
    constructor produces no object and ends before any event: the
    directory is not looked up and no file is opened.  When the base
    class's [read_elements] accepts the element and the label, the
    constructor ends at the lookup in the table, with [KeyError] on the
    label. *)
Theorem unknown_subshell_fails_before_file_io
  (arg : element_subshell_arg) (sub : string) :
  requested_subshell arg = Some sub ->
  ~ In sub convention_keys ->
  conventions_get sub = Raise (KeyError sub)
  /\ (forall self, snd (__init__ arg) <> Ok self)
  /\ fst (__init__ arg) = []
  /\ (forall el onset,
        requested_element arg = Some el ->
        GOSBase_read_elements el sub = Ok onset ->
        snd (__init__ arg) = Raise (KeyError sub)).
Proof.
  intros Hsub Hnot. split; [now apply conventions_get_unknown|].
  unfold __init__, requested_subshell, requested_element in *. cbv zeta.
  destruct arg as [s|d].
  - destruct (split_on "_" s) as [|el [|sub' [|x l]]]; try discriminate Hsub.
    injection Hsub as ->.
    rewrite io_bind_pure.
    erewrite read_elements_unknown; [|reflexivity|reflexivity|exact Hnot].
    destruct (GOSBase_read_elements el sub) eqn:Hbase; cbn [fst snd].
    + repeat split; try discriminate.
    + repeat split; try discriminate.
      intros el' onset Hel Hb. injection Hel as <-. congruence.
    + repeat split; try discriminate.
      intros el' onset Hel Hb. injection Hel as <-. congruence.
  - rewrite Hsub. destruct (dict_element d) as [el|]; unfold dict_get.
    + rewrite !io_bind_pure.
      erewrite read_elements_unknown; [|reflexivity|reflexivity|exact Hnot].
      destruct (GOSBase_read_elements el sub) eqn:Hbase; cbn [fst snd].
      * repeat split; try discriminate.
      * repeat split; try discriminate.
        intros el' onset Hel Hb. injection Hel as <-. congruence.
      * repeat split; try discriminate.
        intros el' onset Hel Hb. injection Hel as <-. congruence.
    + rewrite io_bind_pure. cbn [fst snd]. repeat split; try discriminate.
Qed.

Lemma add_scalar_nth (a : list R) (x : R) (i : nat) :
  nth_error (add_scalar a x) i = option_map (fun e => e + x) (nth_error a i).
Proof.
  unfold add_scalar. apply nth_error_map.
Qed.

(** What [readgosfile] leaves in the object, when it returns. *)
Lemma readgosfile_Ok (self self' : HartreeSlaterGOS) :
  snd (readgosfile self) = Ok self' ->
  exists el sub onset e content h g rel q,
    element self = Some el /\ subshell self = Some sub
    /\ onset_energy self = Some onset
    /\ conventions_get sub = Ok e
    /\ is_dir eels_gos_files_path = true
    /\ read_text (joinpath eels_gos_files_path (el ++ "." ++ table e)) = Some content
    /\ parse_gos_list (py_split (remove_cr content)) = Ok (h, g)
    /\ get_parametrized_energy_axis (info2_1 h) (info2_2 h) (nrow h) = Ok rel
    /\ get_parametrized_qaxis (info1_1 h) (info1_2 h) (ncol h) = Ok q
    /\ self' = set_energy_axis (add_scalar rel onset)
                 (set_qaxis q (set_rel_energy_axis rel (set_gos_array g self))).
Proof.
  unfold readgosfile. rewrite io_bind_pure.
  destruct (element self) as [el|]; simpl; [|discriminate].
  destruct (subshell self) as [sub|]; simpl; [|discriminate].
  destruct (onset_energy self) as [onset|] eqn:Honset; simpl; [|discriminate].
  rewrite io_bind_emit. cbn [snd]. rewrite !io_bind_pure.
  destruct (conventions_get sub) as [e| |] eqn:He; simpl; try discriminate.
  rewrite io_bind_emit. cbn [snd].
  destruct (is_dir eels_gos_files_path) eqn:Hdir; simpl; [|discriminate].
  rewrite io_bind_emit. cbn [snd]. rewrite io_bind_pure.
  destruct (read_text _) as [content|] eqn:Hread; simpl; [|discriminate].
  rewrite io_bind_pure.
  destruct (parse_gos_list _) as [[h g]| |] eqn:Hparse; simpl; try discriminate.
  rewrite io_bind_pure.
  destruct (get_parametrized_energy_axis _ _ _) as [rel| |] eqn:Hrel; simpl;
    try discriminate.
  rewrite io_bind_pure.
  destruct (get_parametrized_qaxis _ _ _) as [q| |] eqn:Hq; simpl;
    try discriminate.
  intros H. injection H as <-.
  exists el, sub, onset, e, content, h, g, rel, q.
  repeat split; assumption.
Qed.

(** C8.  On both paths of the constructor, from a table file and from an
    exported dictionary, the object it returns holds an energy axis that
    is its relative energy axis plus its onset energy, entry by entry. *)
Theorem energy_axis_after_construction
  (arg : element_subshell_arg) (self : HartreeSlaterGOS) :
  snd (__init__ arg) = Ok self ->
  exists rel onset ea,
    rel_energy_axis self = Some rel /\ onset_energy self = Some onset
    /\ energy_axis self = Some ea
    /\ List.length ea = List.length rel
    /\ forall i, nth_error ea i = option_map (fun e => e + onset) (nth_error rel i).
Proof.
  unfold __init__. cbv zeta. destruct arg as [s|d].
  - destruct (split_on "_" s) as [|el [|sub [|x l]]]; try discriminate.
    rewrite io_bind_pure.
    destruct (read_elements _) as [self1| |]; try discriminate.
    intros H. apply readgosfile_Ok in H.
    destruct H as (el' & sub' & onset & e & content & h & g & rel & q & H).
    destruct H as (_ & _ & Honset & _ & _ & _ & _ & _ & _ & ->).
    exists rel, onset, (add_scalar rel onset). simpl.
    repeat split; try assumption.
    + unfold add_scalar. apply length_map.
    + intros i. apply add_scalar_nth.
  - rewrite io_bind_pure.
    destruct (dict_element d) as [el|]; simpl; [|discriminate].
    rewrite io_bind_pure.
    destruct (dict_subshell d) as [sub|]; simpl; [|discriminate].
    rewrite io_bind_pure.
    destruct (read_elements _) as [self1| |]; try discriminate.
    unfold _load_dictionary, pure. cbn [snd].
    destruct (load_from_dictionary self1 d) as [self2| |]; simpl; try discriminate.
    destruct (rel_energy_axis self2) as [rel|] eqn:Hrel; simpl; [|discriminate].
    destruct (onset_energy self2) as [onset|] eqn:Honset; simpl; [|discriminate].
    intros H. injection H as <-.
    exists rel, onset, (add_scalar rel onset). simpl.
    repeat split; try assumption.
    + unfold add_scalar. apply length_map.
    + intros i. apply add_scalar_nth.
Qed.

End ConstructionProperties.

(** ** The layout of a table file *)

Lemma map_result_Ok {A B : Type} (f : A -> result B) (l : list A) (l' : list B) :
  map_result f l = Ok l' -> Forall2 (fun a b => f a = Ok b) l l'.
Proof.
  revert l'. induction l as [|a l IH]; simpl; intros l' H.
  - injection H as <-. constructor.
  - destruct (f a) as [b| |] eqn:Hfa; simpl in H; try discriminate.
    destruct (map_result f l) as [bs| |]; simpl in H; try discriminate.
    injection H as <-. constructor; auto.
Qed.

Lemma Forall2_nth_error {A B : Type} (P : A -> B -> Prop) (l : list A) (l' : list B) :
  Forall2 P l l' ->
  forall k b, nth_error l' k = Some b -> exists a, nth_error l k = Some a /\ P a b.
Proof.
  induction 1 as [|a b l l' Hab _ IH]; intros k y Hk.
  - destruct k; discriminate.
  - destruct k as [|k]; simpl in *.
    + injection Hk as <-. eauto.
    + eauto.
Qed.

Lemma Forall2_same_length {A B : Type} (P : A -> B -> Prop) (l : list A) (l' : list B) :
  Forall2 P l l' -> List.length l = List.length l'.
Proof.
  induction 1; simpl; congruence.
Qed.

Lemma rows_of_length (flat : list R) (n m : nat) :
  List.length (rows_of flat n m) = n.
Proof.
  unfold rows_of. now rewrite length_map, length_seq.
Qed.

Lemma rows_of_nth (flat : list R) (n m i : nat) :
  (i < n)%nat ->
  nth_error (rows_of flat n m) i = Some (firstn m (skipn (i * m) flat)).
Proof.
  intros Hi. unfold rows_of.
  rewrite nth_error_map, nth_error_seq.
  destruct (Nat.ltb_spec i n) as [_|Hge]; [reflexivity | lia].
Qed.

Lemma window_nth (flat : list R) (k m j : nat) :
  (j < m)%nat ->
  nth_error (firstn m (skipn k flat)) j = nth_error flat (k + j).
Proof.
  intros Hj. rewrite nth_error_firstn.
  destruct (Nat.ltb_spec j m) as [_|Hge]; [|lia].
  apply nth_error_skipn.
Qed.

Section TableLayout.

Context {ext : Externals}.

Lemma to_float_Ok (tok : string) (x : R) :
  to_float tok = Ok x -> py_float tok = Some x.
Proof.
  unfold to_float. destruct (py_float tok); intros H; now inversion H.
Qed.

Lemma to_int_Ok (tok : string) (n : Z) :
  to_int tok = Ok n -> py_int tok = Some n.
Proof.
  unfold to_int. destruct (py_int tok); intros H; now inversion H.
Qed.

Lemma index_Ok {A : Type} (l : list A) (k : nat) (a : A) :
  index l k = Ok a -> nth_error l k = Some a.
Proof.
  unfold index. destruct (nth_error l k); intros H; now inversion H.
Qed.

Lemma reshape_nonneg (flat : list R) (n m : Z) (g : list (list R)) :
  (0 <= n)%Z -> (0 <= m)%Z -> reshape flat n m = Ok g ->
  Z.of_nat (List.length flat) = (n * m)%Z
  /\ g = rows_of flat (Z.to_nat n) (Z.to_nat m).
Proof.
  intros Hn Hm. unfold reshape.
  destruct (Z.ltb_spec n 0); [lia|].
  destruct (Z.ltb_spec m 0); [lia|].
  destruct (Z.eqb_spec (Z.of_nat (List.length flat)) (n * m)); [|discriminate].
  intros Hg. injection Hg as <-. now split.
Qed.

(** What [parse_gos_list] returns is laid out in the tokens as above. *)
Lemma parse_gos_list_layout (toks : list string) (h : gos_header)
  (g : list (list R)) :
  parse_gos_list toks = Ok (h, g) -> token_layout toks h g.
Proof.
  unfold parse_gos_list. intros H.
  destruct (index toks 2) as [t2| |] eqn:H2; cbn [bind] in H; try discriminate H.
  destruct (to_float t2) as [i11| |] eqn:F2; cbn [bind] in H; try discriminate H.
  destruct (index toks 3) as [t3| |] eqn:H3; cbn [bind] in H; try discriminate H.
  destruct (to_float t3) as [i12| |] eqn:F3; cbn [bind] in H; try discriminate H.
  destruct (index toks 5) as [t5| |] eqn:H5; cbn [bind] in H; try discriminate H.
  destruct (to_int t5) as [nc| |] eqn:F5; cbn [bind] in H; try discriminate H.
  destruct (index toks 6) as [t6| |] eqn:H6; cbn [bind] in H; try discriminate H.
  destruct (to_float t6) as [i21| |] eqn:F6; cbn [bind] in H; try discriminate H.
  destruct (index toks 7) as [t7| |] eqn:H7; cbn [bind] in H; try discriminate H.
  destruct (to_float t7) as [i22| |] eqn:F7; cbn [bind] in H; try discriminate H.
  destruct (index toks 8) as [t8| |] eqn:H8; cbn [bind] in H; try discriminate H.
  destruct (to_int t8) as [nr| |] eqn:F8; cbn [bind] in H; try discriminate H.
  destruct (map_result to_float (skipn 9 toks)) as [flat| |] eqn:Hflat;
    cbn [bind] in H; try discriminate H.
  destruct (reshape flat nr nc) as [rows| |] eqn:Hshape; cbn [bind] in H;
    try discriminate H.
  injection H as <- <-.
  apply index_Ok in H2, H3, H5, H6, H7, H8.
  apply to_float_Ok in F2, F3, F6, F7. apply to_int_Ok in F5, F8.
  apply map_result_Ok in Hflat.
  assert (Hlen : List.length toks = (9 + List.length flat)%nat).
  { apply Forall2_same_length in Hflat. rewrite length_skipn in Hflat.
    assert (8 < List.length toks)%nat by (apply nth_error_Some; congruence).
    lia. }
  unfold token_layout, float_at, int_at.
  cbn [info1_1 info1_2 ncol info2_1 info2_2 nrow].
  do 6 (split; [eauto|]). split.
  - intros k tok Hk Htok.
    replace k with (9 + (k - 9))%nat in Htok by lia.
    rewrite <- nth_error_skipn in Htok.
    destruct (Forall2_nth_error Hflat) with (k := (k - 9)%nat)
      (b := match nth_error flat (k - 9) with Some x => x | None => 0 end)
      as (tok' & Htok' & Hx).
    + destruct (nth_error flat (k - 9)) eqn:Hnth; [reflexivity|].
      apply nth_error_None in Hnth.
      assert (k - 9 < List.length (skipn 9 toks))%nat
        by (apply nth_error_Some; congruence).
      rewrite length_skipn in *. lia.
    + rewrite Htok in Htok'. injection Htok' as <-.
      apply to_float_Ok in Hx. congruence.
  - intros Hnr Hnc.
    destruct (@reshape_nonneg _ _ _ _ Hnr Hnc Hshape) as [Hsize ->].
    split; [lia|]. split; [now rewrite length_map, rows_of_length|].
    intros i j Hi Hj.
    assert (Hij : (i * Z.to_nat nc + j < List.length flat)%nat) by nia.
    destruct (nth_error flat (i * Z.to_nat nc + j)) as [x|] eqn:Hx;
      [|apply nth_error_None in Hx; lia].
    destruct (Forall2_nth_error Hflat _ Hx) as (tok & Htok & Hf).
    exists (map (fun y => y / Rydberg)
                (firstn (Z.to_nat nc) (skipn (i * Z.to_nat nc) flat))), x.
    split; [|split].
    + rewrite nth_error_map, rows_of_nth by assumption. reflexivity.
    + exists tok. rewrite nth_error_skipn in Htok.
      split; [assumption | now apply to_float_Ok].
    + rewrite nth_error_map, window_nth by assumption. now rewrite Hx.
Qed.

(** C7 (as amended).  When [readgosfile] returns, the text of the file
    [{element}.{table}] splits into tokens that are laid out as
    [token_layout] says, the matrix they hold is the object's [gos_array],
    the object's [qaxis] is the parametrised q-axis of the numbers at
    tokens 2 and 3 and of the column count at token 5, and its
    [rel_energy_axis] the parametrised energy axis of the numbers at
    tokens 6 and 7 and of the row count at token 8.  So the load fails
    when a token the program reads is missing or is not a number, and when
    the two counts are not negative and the number of tokens is not
    9 + N*M. *)
Theorem readgosfile_token_layout (self self' : HartreeSlaterGOS) :
  snd (readgosfile self) = Ok self' ->
  exists el sub e content h g,
    element self = Some el /\ subshell self = Some sub
    /\ conventions_get sub = Ok e
    /\ read_text (joinpath eels_gos_files_path (el ++ "." ++ table e)) = Some content
    /\ parse_gos_list (py_split (remove_cr content)) = Ok (h, g)
    /\ gos_array self' = Some g
    /\ token_layout (py_split (remove_cr content)) h g
    /\ exists rel q,
         get_parametrized_qaxis (info1_1 h) (info1_2 h) (ncol h) = Ok q
         /\ qaxis self' = Some q
         /\ get_parametrized_energy_axis (info2_1 h) (info2_2 h) (nrow h) = Ok rel
         /\ rel_energy_axis self' = Some rel.
Proof.
  intros H. apply readgosfile_Ok in H.
  destruct H as (el & sub & onset & e & content & h & g & rel & q & H).
  destruct H as (Hel & Hsub & _ & He & _ & Hread & Hparse & Hrel & Hq & ->).
  exists el, sub, e, content, h, g. simpl.
  repeat (split; [assumption|]). split; [reflexivity|].
  split; [now apply parse_gos_list_layout|].
  exists rel, q. repeat split; assumption.
Qed.

End TableLayout.

(** ** What [integrateq] does to the object *)

Section Frame.

Context {ext : Externals}.

(** The object after the call: the object before it with [energy_shift]
    assigned, and [qint] too once the loop and the scaling are through. *)
Lemma integrateq_object (self : HartreeSlaterGOS) (onset angle E0 : R) :
  fst (integrateq self onset angle E0)
  = match onset_energy self with
    | None => self
    | Some so =>
        let self1 := set_energy_shift (onset - so) self in
        match integrateq_qint self1 (onset - so) angle E0 with
        | Ok (_, q) => set_qint q self1
        | _ => self1
        end
    end.
Proof.
  unfold integrateq. destruct (onset_energy self) as [so|]; simpl; [|reflexivity].
  now destruct (integrateq_qint _ _ _ _) as [[E q]| |].
Qed.

(** C3 (as amended).  A call of [integrateq] leaves the attributes
    [element], [subshell], [onset_energy], [rel_energy_axis],
    [energy_axis], [qaxis], [gos_array] and [subshell_factor] (and
    [_whitelist]) of the object as they were.  It does write to the
    object: [energy_shift] is assigned as soon as the onset energy has
    been read, and [qint] whenever the call returns. *)
Theorem integrateq_frame (self : HartreeSlaterGOS) (onset angle E0 : R) :
  (_whitelist (fst (integrateq self onset angle E0)) = _whitelist self
   /\ element (fst (integrateq self onset angle E0)) = element self
   /\ subshell (fst (integrateq self onset angle E0)) = subshell self
   /\ onset_energy (fst (integrateq self onset angle E0)) = onset_energy self
   /\ rel_energy_axis (fst (integrateq self onset angle E0)) = rel_energy_axis self
   /\ energy_axis (fst (integrateq self onset angle E0)) = energy_axis self
   /\ qaxis (fst (integrateq self onset angle E0)) = qaxis self
   /\ gos_array (fst (integrateq self onset angle E0)) = gos_array self
   /\ subshell_factor (fst (integrateq self onset angle E0)) = subshell_factor self)
  /\ (forall so, onset_energy self = Some so ->
        energy_shift (fst (integrateq self onset angle E0)) = Some (onset - so))
  /\ (forall f, snd (integrateq self onset angle E0) = Ok f ->
        exists q, qint (fst (integrateq self onset angle E0)) = Some q).
Proof.
  split; [|split].
  - rewrite integrateq_object.
    destruct (onset_energy self) as [so|] eqn:Hso; [|repeat split; assumption].
    cbv zeta.
    destruct (integrateq_qint _ _ _ _) as [[E q]| |]; simpl;
      repeat split; assumption.
  - intros so Hso. rewrite integrateq_object, Hso. cbv zeta.
    now destruct (integrateq_qint _ _ _ _) as [[E q]| |].
  - intros f. unfold integrateq.
    destruct (onset_energy self) as [so|]; simpl; [|discriminate].
    destruct (integrateq_qint _ _ _ _) as [[E q]| |]; simpl; try discriminate.
    intros _. now exists q.
Qed.

End Frame.

(** ** The program computes the integration of the specification *)

Lemma to_option_bind {A B : Type} (c : result A) (k : A -> result B) :
  to_option (bind c k) = obind (to_option c) (fun a => to_option (k a)).
Proof.
  now destruct c.
Qed.

Lemma obind_ext {A B : Type} (c : option A) (k k' : A -> option B) :
  (forall a, k a = k' a) -> obind c k = obind c k'.
Proof.
  intros H. destruct c; simpl; auto.
Qed.

Lemma obind_assoc {A B C : Type} (c : option A) (k : A -> option B)
  (k' : B -> option C) :
  obind (obind c k) k' = obind c (fun a => obind (k a) k').
Proof.
  now destruct c.
Qed.

Lemma obind_ext_Some {A B : Type} (c : option A) (k k' : A -> option B) :
  (forall a, c = Some a -> k a = k' a) -> obind c k = obind c k'.
Proof.
  intros H. destruct c; simpl; auto.
Qed.

Lemma map_option_ext {A B : Type} (f f' : A -> option B) (l : list A) :
  (forall a, In a l -> f a = f' a) -> map_option f l = map_option f' l.
Proof.
  induction l as [|a l IH]; simpl; intros H; [reflexivity|].
  rewrite (H a) by now left. rewrite IH by (intros; apply H; now right).
  reflexivity.
Qed.

Lemma to_option_map_result {A B : Type} (f : A -> result B) (l : list A) :
  to_option (map_result f l) = map_option (fun a => to_option (f a)) l.
Proof.
  induction l as [|a l IH]; simpl; [reflexivity|].
  rewrite to_option_bind. apply obind_ext. intros b.
  rewrite to_option_bind, IH. reflexivity.
Qed.

Lemma map_option_length {A B : Type} (f : A -> option B) (l : list A) (l' : list B) :
  map_option f l = Some l' -> List.length l' = List.length l.
Proof.
  revert l'. induction l as [|a l IH]; simpl; intros l' H.
  - now injection H as <-.
  - destruct (f a); simpl in H; [|discriminate].
    destruct (map_option f l) as [bs|]; simpl in H; [|discriminate].
    injection H as <-. simpl. f_equal. now apply IH.
Qed.

Lemma np_div_Ok (x y : R) : y <> 0 -> np_div x y = Ok (x / y).
Proof.
  intros H. unfold np_div. now destruct (Req_dec_T y 0).
Qed.

Lemma py_div_Ok (x y : R) : y <> 0 -> py_div x y = Ok (x / y).
Proof.
  intros H. unfold py_div. now destruct (Req_dec_T y 0).
Qed.

Lemma np_sqrt_Ok (x : R) : 0 <= x -> np_sqrt x = Ok (sqrt x).
Proof.
  intros H. unfold np_sqrt. destruct (Rlt_dec x 0); [lra | reflexivity].
Qed.

Lemma math_sqrt_Ok (x : R) : 0 <= x -> math_sqrt x = Ok (sqrt x).
Proof.
  intros H. unfold math_sqrt. destruct (Rlt_dec x 0); [lra | reflexivity].
Qed.

Lemma np_div_zero (x y : R) : y = 0 -> to_option (np_div x y) = None.
Proof.
  intros H. unfold np_div. now destruct (Req_dec_T y 0).
Qed.

Lemma py_div_zero (x y : R) : y = 0 -> to_option (py_div x y) = None.
Proof.
  intros H. unfold py_div. now destruct (Req_dec_T y 0).
Qed.

Lemma np_sqrt_negative (x : R) : x < 0 -> to_option (np_sqrt x) = None.
Proof.
  intros H. unfold np_sqrt. now destruct (Rlt_dec x 0).
Qed.

Lemma math_sqrt_negative (x : R) : x < 0 -> to_option (math_sqrt x) = None.
Proof.
  intros H. unfold math_sqrt. now destruct (Rlt_dec x 0).
Qed.

Section Refinement.

Context {ext : Externals}.

(** Line 189 computes the [T] of the specification, when it does not
    divide by zero. *)
Lemma kinetic_T_spec (E0 : R) :
  kinetic_T (spec_gamma E0)
  = if Req_dec_T ((spec_gamma E0) ^ 2) 0 then Raise ZeroDivisionError
    else Ok (spec_T E0).
Proof.
  unfold kinetic_T, py_div.
  destruct (Req_dec_T ((spec_gamma E0) ^ 2) 0); reflexivity.
Qed.

(** Lines 193-200 return the limits of the specification where its
    kinematics are defined, and do not return elsewhere. *)
Lemma q_limits_spec (E0 angle E : R) :
  (spec_gamma E0) ^ 2 <> 0 ->
  to_option (q_limits angle (spec_gamma E0) (spec_T E0) E)
  = spec_q_range E0 angle E.
Proof.
  intros Hg. unfold spec_q_range, q_limits.
  destruct (spec_defined_dec E0 angle E) as [D|ND];
    unfold spec_defined, spec_qmin, spec_qmax, spec_qa0sqmax, spec_qa0sqmin,
      spec_pp2, spec_p02 in *.
  - destruct D as (_ & d1 & d2 & d3 & s1 & s2 & s3).
    rewrite (np_div_Ok _ d1), (np_div_Ok _ d2). cbn [bind].
    rewrite (py_div_Ok _ d3). cbn [bind].
    rewrite (np_sqrt_Ok s1). cbn [bind].
    rewrite (math_sqrt_Ok s2). cbn [bind].
    rewrite (math_sqrt_Ok s3). reflexivity.
  - unfold np_div, py_div, np_sqrt, math_sqrt.
    repeat match goal with
           | |- context [Req_dec_T ?y 0] =>
               destruct (Req_dec_T y 0); cbn [bind to_option]; [reflexivity|]
           | |- context [Rlt_dec ?x 0] =>
               destruct (Rlt_dec x 0); cbn [bind to_option]; [reflexivity|]
           end.
    exfalso. apply ND. repeat split; try assumption; now apply Rnot_lt_le.
Qed.

Lemma list_set_Ok (l : list R) (k : nat) (v : R) :
  (k < List.length l)%nat ->
  list_set l k v = Ok (firstn k l ++ v :: skipn (S k) l)%list.
Proof.
  intros Hk. unfold list_set.
  destruct (Nat.ltb_spec k (List.length l)); [reflexivity | lia].
Qed.

Lemma firstn_after_set (l : list R) (k : nat) (v : R) :
  (k < List.length l)%nat ->
  firstn (S k) (firstn k l ++ v :: skipn (S k) l) = (firstn k l ++ [v])%list.
Proof.
  intros Hk.
  rewrite firstn_app, length_firstn, Nat.min_l by lia.
  rewrite firstn_all2 by (rewrite length_firstn; lia).
  replace (S k - k)%nat with 1%nat by lia. reflexivity.
Qed.

Lemma skipn_after_set (l : list R) (k n : nat) (v : R) :
  (k < List.length l)%nat ->
  skipn (S k + n) (firstn k l ++ v :: skipn (S k) l) = skipn (k + S n) l.
Proof.
  intros Hk.
  rewrite skipn_app, length_firstn, Nat.min_l by lia.
  rewrite skipn_all2 by (rewrite length_firstn; lia).
  replace (S k + n - k)%nat with (S n) by lia.
  change (skipn (S n) (v :: skipn (S k) l)) with (skipn n (skipn (S k) l)).
  rewrite skipn_skipn. cbn [app]. f_equal. lia.
Qed.

(** The loop of line 190 over the rows [k, k + n) stores into [qint] the
    values of the rows in order, and ends at the first row that does not
    return. *)
Lemma integrateq_loop_seq (row : nat -> result R) (n k : nat) (qint : list R) :
  (k + n <= List.length qint)%nat ->
  integrateq_loop row (seq k n) qint
  = (vs <- map_result row (seq k n) ;;
     Ok (firstn k qint ++ vs ++ skipn (k + n) qint)%list)%result.
Proof.
  revert k qint. induction n as [|n IH]; intros k qint Hlen.
  - cbn [seq integrateq_loop map_result bind app].
    now rewrite Nat.add_0_r, firstn_skipn.
  - cbn [seq integrateq_loop map_result].
    destruct (row k) as [v| |]; cbn [bind]; try reflexivity.
    rewrite list_set_Ok by lia. cbn [bind].
    rewrite IH.
    + destruct (map_result row (seq (S k) n)) as [vs| |]; cbn [bind];
        try reflexivity.
      rewrite firstn_after_set, skipn_after_set by lia.
      now rewrite <- app_assoc.
    + rewrite length_app, length_firstn, Nat.min_l by lia.
      cbn [List.length]. rewrite length_skipn. lia.
Qed.

Lemma table_of_Some (self : HartreeSlaterGOS) (t : GOSTable) :
  table_of self = Some t ->
  onset_energy self = Some (onsetEnergy t)
  /\ energy_axis self = Some (energyAxis t)
  /\ qaxis self = Some (qAxis t)
  /\ gos_array self = Some (gos t)
  /\ subshell_factor self = Some (subshellFactor t).
Proof.
  unfold table_of.
  destruct (element self), (subshell self), (onset_energy self),
    (rel_energy_axis self), (energy_axis self), (qaxis self),
    (gos_array self), (subshell_factor self); try discriminate.
  intros H. injection H as <-. simpl. repeat split.
Qed.

(** The body of the loop computes the row of the specification. *)
Lemma integrateq_row_spec (self : HartreeSlaterGOS) (t : GOSTable)
  (onset angle E0 es : R) (i : nat) :
  table_of self = Some t ->
  (spec_gamma E0) ^ 2 <> 0 ->
  to_option (integrateq_row (set_energy_shift es self) (onset - onsetEnergy t)
                            angle (spec_gamma E0) (spec_T E0) i)
  = spec_row t onset angle E0 i.
Proof.
  intros Ht Hg. destruct (table_of_Some _ Ht) as (_ & Hea & Hq & Hgos & _).
  unfold integrateq_row, spec_row.
  cbn [set_energy_shift energy_axis qaxis gos_array].
  rewrite Hea, Hq, Hgos. cbn [attr bind].
  unfold index. destruct (nth_error (energyAxis t) i) as [Ei|]; [|reflexivity].
  cbn [bind obind]. rewrite to_option_bind, (q_limits_spec _ _ Hg).
  apply obind_ext. intros [qmin qmax]. cbn [fst snd].
  rewrite to_option_bind. apply obind_ext. intros [qs gs]. cbn [fst snd].
  rewrite to_option_bind, to_option_map_result. unfold spec_log_grid.
  rewrite (map_option_ext
             (fun q => to_option (np_log ((a0 * q) ^ 2)))
             (fun q => if Rle_dec ((a0 * q) ^ 2) 0 then None
                       else Some (ln ((a0 * q) ^ 2)))); [reflexivity|].
  intros q _. unfold np_log. now destruct (Rle_dec ((a0 * q) ^ 2) 0).
Qed.

(** One entry of the scaling: the program divides by [E] and then by
    [T], the specification by their product. *)
Lemma scale_entry_spec (E0 f Ej : R) :
  to_option (c1 <- np_div (4 * PI * a0 ^ 2 * Rydberg ^ 2) Ej ;;
             c2 <- np_div c1 (spec_T E0) ;;
             Ok (c2 * f * 1e28))%result
  = if Req_dec_T (Ej * spec_T E0) 0 then None
    else Some (spec_scale E0 f Ej).
Proof.
  unfold np_div, spec_scale.
  destruct (Req_dec_T Ej 0) as [z1|n1]; cbn [bind to_option].
  - destruct (Req_dec_T (Ej * spec_T E0) 0) as [_|n]; [reflexivity|].
    exfalso. apply n. rewrite z1. ring.
  - destruct (Req_dec_T (spec_T E0) 0) as [z2|n2]; cbn [bind to_option].
    + destruct (Req_dec_T (Ej * spec_T E0) 0) as [_|n]; [reflexivity|].
      exfalso. apply n. rewrite z2. ring.
    + destruct (Req_dec_T (Ej * spec_T E0) 0) as [z|_].
      * apply Rmult_integral in z. tauto.
      * f_equal. field. tauto.
Qed.

Lemma scale_qint_spec (E0 f : R) (E qint : list R) :
  List.length qint = List.length E ->
  to_option (scale_qint E qint (spec_T E0) f) = spec_scaled E0 f qint E.
Proof.
  unfold scale_qint, spec_scaled.
  rewrite to_option_bind, to_option_map_result.
  rewrite (map_option_ext _ (fun Ej => if Req_dec_T (Ej * spec_T E0) 0 then None
                                       else Some (spec_scale E0 f Ej)))
    by (intros; apply scale_entry_spec).
  revert qint. induction E as [|Ej E IH]; intros [|q qint] Hlen;
    try discriminate Hlen; [reflexivity|].
  injection Hlen as Hlen. specialize (IH qint Hlen). cbn [fst snd] in *.
  simpl. destruct (Req_dec_T (Ej * spec_T E0) 0); [reflexivity|].
  simpl.
  destruct (map_option _ E) as [sc|]; destruct (map_option _ (combine qint E));
    simpl in *; try discriminate IH; try reflexivity.
  now injection IH as <-.
Qed.

(** Lines 185-208 compute the shifted axis and the scaled [qint] of the
    specification. *)
Lemma integrateq_qint_spec (self : HartreeSlaterGOS) (t : GOSTable)
  (onset angle E0 es : R) :
  table_of self = Some t ->
  List.length (energyAxis t) = List.length (gos t) ->
  to_option (integrateq_qint (set_energy_shift es self) (onset - onsetEnergy t)
                             angle E0)
  = if Req_dec_T ((spec_gamma E0) ^ 2) 0 then None
    else
      obind (map_option (spec_row t onset angle E0) (seq 0 (List.length (gos t))))
            (fun qint =>
      obind (spec_scaled E0 (Q2R (subshellFactor t)) qint
                         (map (fun e => e + (onset - onsetEnergy t)) (energyAxis t)))
            (fun scaled =>
      Some (map (fun e => e + (onset - onsetEnergy t)) (energyAxis t), scaled))).
Proof.
  intros Ht Hlen. destruct (table_of_Some _ Ht) as (_ & Hea & _ & Hgos & Hf).
  unfold integrateq_qint.
  cbn [set_energy_shift energy_axis gos_array subshell_factor].
  rewrite Hea, Hgos, Hf. cbn [attr bind].
  change (1 + E0 / 511.06) with (spec_gamma E0).
  rewrite kinetic_T_spec.
  destruct (Req_dec_T ((spec_gamma E0) ^ 2) 0) as [|Hg]; [reflexivity|].
  cbn [bind].
  rewrite integrateq_loop_seq by (rewrite repeat_length; simpl; lia).
  rewrite to_option_bind, to_option_bind, obind_assoc, to_option_map_result.
  rewrite (map_option_ext _ (spec_row t onset angle E0))
    by (intros; now apply integrateq_row_spec).
  apply obind_ext_Some. intros vs Hvs. apply map_option_length in Hvs.
  rewrite length_seq in Hvs.
  rewrite skipn_all2 by (rewrite repeat_length; simpl; lia).
  cbn [firstn app]. rewrite app_nil_r. cbn [to_option obind].
  rewrite to_option_bind, scale_qint_spec
    by (unfold add_scalar; rewrite length_map; lia).
  reflexivity.
Qed.

(** C1.  For the table [t] an object holds, with as many energies as
    rows, [integrateq] returns exactly what the integration of the
    specification yields: for each row the limits [qmin] and [qmax] of its
    formulas, the Simpson integral of the extracted row against
    [ln((a0 q)^2)], the scaling by 4 pi a0^2 R^2 / (E T) times the subshell
    factor times 1e28, and the cubic interpolant over the shifted energy
    axis.  Where a formula is undefined over the reals, or the extraction,
    the quadrature or the interpolation fails, the call has no result over
    the reals: it raises, or it goes on with a NaN or an infinity. *)
Theorem integrateq_refines_spec (self : HartreeSlaterGOS) (t : GOSTable)
  (onsetEnergyOverride collectionHalfAngle beamEnergy : R) :
  table_of self = Some t ->
  List.length (energyAxis t) = List.length (gos t) ->
  to_option (snd (integrateq self onsetEnergyOverride collectionHalfAngle beamEnergy))
  = spec_integrate t onsetEnergyOverride collectionHalfAngle beamEnergy.
Proof.
  intros Ht Hlen.
  pose proof (@integrateq_qint_spec self t onsetEnergyOverride
    collectionHalfAngle beamEnergy (onsetEnergyOverride - onsetEnergy t) Ht Hlen)
    as H.
  destruct (table_of_Some _ Ht) as (Honset & _).
  unfold integrateq, spec_integrate. rewrite Honset. cbn [attr].
  destruct (Req_dec_T ((spec_gamma beamEnergy) ^ 2) 0) as [|Hg].
  - destruct (integrateq_qint _ _ _ _) as [[E q]| |]; [discriminate H| |]; reflexivity.
  - destruct (map_option _ (seq 0 _)) as [qint|]; cbn [obind] in *.
    + destruct (spec_scaled _ _ _ _) as [scaled|]; cbn [obind] in *.
      * destruct (integrateq_qint _ _ _ _) as [[E q]| |]; try discriminate H.
        simpl in H. injection H as -> ->. reflexivity.
      * destruct (integrateq_qint _ _ _ _) as [[E q]| |]; [discriminate H| |];
          reflexivity.
    + destruct (integrateq_qint _ _ _ _) as [[E q]| |]; [discriminate H| |];
        reflexivity.
Qed.

End Refinement.

(** ** The limits of the integral *)

Section Limits.

Context {ext : Externals}.

(** Where the kinematics of the specification are defined, lines 193-200
    return its limits. *)
Lemma q_limits_defined (E0 angle E : R) :
  spec_defined E0 angle E ->
  q_limits angle (spec_gamma E0) (spec_T E0) E
  = Ok (spec_qmin E0 E, spec_qmax E0 angle E).
Proof.
  intros D. unfold q_limits.
  unfold spec_defined, spec_qmin, spec_qmax, spec_qa0sqmax, spec_qa0sqmin,
    spec_pp2, spec_p02 in *.
  destruct D as (_ & d1 & d2 & d3 & s1 & s2 & s3).
  rewrite (np_div_Ok _ d1), (np_div_Ok _ d2). cbn [bind].
  rewrite (py_div_Ok _ d3). cbn [bind].
  rewrite (np_sqrt_Ok s1). cbn [bind].
  rewrite (math_sqrt_Ok s2). cbn [bind].
  rewrite (math_sqrt_Ok s3). reflexivity.
Qed.

Lemma sin_half_sqr_monotone (a b : R) :
  0 <= a -> a <= b -> b <= PI ->
  (sin (a / 2)) ^ 2 <= (sin (b / 2)) ^ 2.
Proof.
  intros Ha Hab Hb.
  assert (Hpi : 0 < PI) by apply PI_RGT_0.
  assert (H1 : 0 <= sin (a / 2)) by (apply sin_ge_0; lra).
  assert (H2 : sin (a / 2) <= sin (b / 2)) by (apply sin_incr_1; lra).
  apply pow_incr. split; assumption.
Qed.

(** The upper limit of the specification does not decrease when the
    collection half-angle increases from 0 to pi. *)
Lemma spec_qmax_monotone (E0 E a b : R) :
  0 <= a -> a <= b -> b <= PI ->
  spec_qmax E0 a E <= spec_qmax E0 b E.
Proof.
  intros Ha Hab Hb. unfold spec_qmax, spec_qa0sqmax.
  pose proof a0_pos as Ha0.
  pose proof (sin_half_sqr_monotone Ha Hab Hb) as Hs.
  pose proof (sqrt_pos (spec_p02 E0 * spec_pp2 E0 E)) as Hr.
  apply Rmult_le_compat_r; [left; now apply Rinv_0_lt_compat|].
  apply sqrt_le_1_alt. nra.
Qed.

End Limits.

(** ** A momentum transfer outside the tabulated range *)

Lemma Forall2_In_l {A B : Type} (P : A -> B -> Prop) (l : list A) (l' : list B) (a : A) :
  Forall2 P l l' -> In a l -> exists b, P a b.
Proof.
  induction 1 as [|x y l l' Hxy _ IH]; intros Hin; [contradiction|].
  destruct Hin as [<-|Hin]; eauto.
Qed.

(** A map over a list does not return when one of its calls does not. *)
Lemma map_result_not_Ok {A B : Type} (f : A -> result B) (l : list A) (i : A) :
  In i l -> (forall b, f i <> Ok b) -> forall bs, map_result f l <> Ok bs.
Proof.
  intros Hin Hf bs H. apply map_result_Ok in H.
  destruct (@Forall2_In_l _ _ _ _ _ _ H Hin) as [b Hb]. exact (Hf b Hb).
Qed.

(** A map over consecutive indices raises what its first failing call
    raises. *)
Lemma map_result_first_Raise {B : Type} (f : nat -> result B) (n k i : nat) (e : exn) :
  (k <= i < k + n)%nat ->
  (forall j, (k <= j < i)%nat -> exists v, f j = Ok v) ->
  f i = Raise e ->
  map_result f (seq k n) = Raise e.
Proof.
  revert k. induction n as [|n IH]; intros k Hi Hbefore Hraise; [lia|].
  cbn [seq map_result].
  destruct (Nat.eq_dec i k) as [->|Hne].
  - now rewrite Hraise.
  - destruct (Hbefore k) as [v Hv]; [lia|]. rewrite Hv. cbn [bind].
    rewrite IH; [reflexivity | lia | intros j Hj; apply Hbefore; lia | assumption].
Qed.

Section OutOfRange.

Context {ext : Externals}.

(** The extraction is the one the specification describes. *)
Hypothesis get_qaxis_and_gos_modelled :
  forall qAxis gos i qmin qmax,
    get_qaxis_and_gos qAxis gos i qmin qmax
    = GOSBase_get_qaxis_and_gos qAxis gos i qmin qmax.

Lemma get_qaxis_and_gos_out_of_range (qAxis : list R) (gos : list (list R))
  (i : nat) (qmin qmax : R) :
  out_of_range qAxis qmin \/ out_of_range qAxis qmax ->
  get_qaxis_and_gos qAxis gos i qmin qmax = Raise QOutOfRangeError.
Proof.
  intros H. rewrite get_qaxis_and_gos_modelled. unfold GOSBase_get_qaxis_and_gos.
  destruct (out_of_range_dec qAxis qmin); [reflexivity|].
  destruct (out_of_range_dec qAxis qmax); [reflexivity|].
  tauto.
Qed.

(** C4.  With the extraction of the specification: at a row [i] whose
    limits are computed (the kinematics are defined at its energy) and
    for which [qmin] or [qmax] lies outside the range of the q-axis, the
    body of the loop raises [QOutOfRangeError]; [integrateq] then has no
    result, and it raises [QOutOfRangeError] itself when the rows before
    [i] went through: the error is neither caught nor avoided by clamping
    the limits. *)
Theorem q_out_of_range_fails (self : HartreeSlaterGOS) (t : GOSTable)
  (onset angle E0 : R) (i : nat) (Ei : R) :
  table_of self = Some t ->
  List.length (energyAxis t) = List.length (gos t) ->
  nth_error (energyAxis t) i = Some Ei ->
  spec_defined E0 angle (Ei + (onset - onsetEnergy t)) ->
  out_of_range (qAxis t) (spec_qmin E0 (Ei + (onset - onsetEnergy t)))
  \/ out_of_range (qAxis t) (spec_qmax E0 angle (Ei + (onset - onsetEnergy t))) ->
  integrateq_row (set_energy_shift (onset - onsetEnergy t) self)
                 (onset - onsetEnergy t) angle (spec_gamma E0) (spec_T E0) i
  = Raise QOutOfRangeError
  /\ (forall f, snd (integrateq self onset angle E0) <> Ok f)
  /\ ((forall j, (j < i)%nat ->
         exists v, integrateq_row (set_energy_shift (onset - onsetEnergy t) self)
                     (onset - onsetEnergy t) angle (spec_gamma E0) (spec_T E0) j
                   = Ok v) ->
      snd (integrateq self onset angle E0) = Raise QOutOfRangeError).
Proof.
  intros Ht Hlen Hi D Hout.
  destruct (table_of_Some _ Ht) as (Honset & Hea & Hq & Hgos & Hf).
  assert (Hrow : integrateq_row (set_energy_shift (onset - onsetEnergy t) self)
                   (onset - onsetEnergy t) angle (spec_gamma E0) (spec_T E0) i
                 = Raise QOutOfRangeError).
  { unfold integrateq_row.
    cbn [set_energy_shift energy_axis qaxis gos_array].
    rewrite Hea, Hq, Hgos. cbn [attr bind]. unfold index. rewrite Hi. cbn [bind].
    rewrite (q_limits_defined D). cbn [bind].
    now rewrite (@get_qaxis_and_gos_out_of_range _ (gos t) i _ _ Hout). }
  assert (HiN : (i < List.length (gos t))%nat).
  { rewrite <- Hlen. apply nth_error_Some. congruence. }
  assert (Hg : (spec_gamma E0) ^ 2 <> 0) by apply D.
  assert (Hqint : integrateq_qint (set_energy_shift (onset - onsetEnergy t) self)
                    (onset - onsetEnergy t) angle E0
                  = (vs <- map_result
                             (integrateq_row
                                (set_energy_shift (onset - onsetEnergy t) self)
                                (onset - onsetEnergy t) angle (spec_gamma E0)
                                (spec_T E0))
                             (seq 0 (List.length (gos t))) ;;
                     qint <- scale_qint
                               (add_scalar (energyAxis t) (onset - onsetEnergy t))
                               vs (spec_T E0) (Q2R (subshellFactor t)) ;;
                     Ok (add_scalar (energyAxis t) (onset - onsetEnergy t), qint))%result).
  { unfold integrateq_qint.
    cbn [set_energy_shift energy_axis gos_array subshell_factor].
    rewrite Hea, Hgos, Hf. cbn [attr bind].
    change (1 + E0 / 511.06) with (spec_gamma E0).
    rewrite kinetic_T_spec.
    destruct (Req_dec_T ((spec_gamma E0) ^ 2) 0) as [|_]; [contradiction|].
    cbn [bind].
    rewrite integrateq_loop_seq by (rewrite repeat_length; simpl; lia).
    destruct (map_result _ (seq 0 _)) as [vs| |] eqn:Hvs; cbn [bind];
      try reflexivity.
    apply map_result_Ok, Forall2_same_length in Hvs. rewrite length_seq in Hvs.
    rewrite skipn_all2 by (rewrite repeat_length; simpl; lia).
    cbn [firstn app]. now rewrite app_nil_r. }
  split; [exact Hrow|]. split.
  - intros f. unfold integrateq. rewrite Honset. cbn [attr]. rewrite Hqint.
    destruct (map_result _ (seq 0 _)) as [vs| |] eqn:Hvs; cbn [bind snd];
      try discriminate.
    exfalso. revert Hvs. apply map_result_not_Ok with (i := i).
    + apply in_seq. lia.
    + intros b. rewrite Hrow. discriminate.
  - intros Hbefore. unfold integrateq. rewrite Honset. cbn [attr]. rewrite Hqint.
    rewrite (@map_result_first_Raise _ _ (List.length (gos t)) 0 i QOutOfRangeError);
      [reflexivity | lia | intros j Hj; apply Hbefore; lia | exact Hrow].
Qed.

End OutOfRange.

(** ** The program on the concrete environment *)

Section OnExample.

Import Example.

Local Open Scope string_scope.

(** C9 at the string ["Ti_Q9"]: the label ["Q9"] is no key of the table,
    and the titanium entry lets the base method through. *)
Lemma unknown_subshell_fails_before_file_io_witness :
  requested_subshell (FromString "Ti_Q9") = Some "Q9"
  /\ ~ In "Q9" convention_keys
  /\ conventions_get "Q9" = Raise (KeyError "Q9")
  /\ (forall self, snd (__init__ (FromString "Ti_Q9")) <> Ok self)
  /\ fst (__init__ (FromString "Ti_Q9")) = []
  /\ (forall el onset,
        requested_element (FromString "Ti_Q9") = Some el ->
        GOSBase_read_elements el "Q9" = Ok onset ->
        snd (__init__ (FromString "Ti_Q9")) = Raise (KeyError "Q9")).
Proof.
  assert (Hnot : ~ In "Q9" convention_keys).
  { apply lookup_None_notin. reflexivity. }
  split; [reflexivity|]. split; [exact Hnot|].
  exact (@unknown_subshell_fails_before_file_io externals (FromString "Ti_Q9") "Q9"
           eq_refl Hnot).
Defined.

(** C8 at the string ["Ti_L3"]: the constructor reads the table of 3 rows
    and 4 columns and returns an object. *)
Lemma energy_axis_after_construction_witness :
  exists self,
    snd (__init__ (FromString "Ti_L3")) = Ok self
    /\ exists rel onset ea,
         rel_energy_axis self = Some rel /\ onset_energy self = Some onset
         /\ energy_axis self = Some ea
         /\ List.length ea = List.length rel
         /\ forall i, nth_error ea i = option_map (fun e => e + onset) (nth_error rel i).
Proof.
  eexists. split; [reflexivity|].
  exact (@energy_axis_after_construction externals (FromString "Ti_L3") _ eq_refl).
Defined.

(** C7 at the file [/gos/Ti.L3]: 21 tokens, 9 + 3 * 4. *)
Lemma readgosfile_token_layout_witness :
  exists self',
    snd (readgosfile Ti_L3_object) = Ok self'
    /\ exists el sub e content h g,
         element Ti_L3_object = Some el /\ subshell Ti_L3_object = Some sub
         /\ conventions_get sub = Ok e
         /\ read_text (joinpath eels_gos_files_path (el ++ "." ++ table e))
            = Some content
         /\ parse_gos_list (py_split (remove_cr content)) = Ok (h, g)
         /\ gos_array self' = Some g
         /\ token_layout (py_split (remove_cr content)) h g
         /\ exists rel q,
              get_parametrized_qaxis (info1_1 h) (info1_2 h) (ncol h) = Ok q
              /\ qaxis self' = Some q
              /\ get_parametrized_energy_axis (info2_1 h) (info2_2 h) (nrow h)
                 = Ok rel
              /\ rel_energy_axis self' = Some rel.
Proof.
  eexists. split; [reflexivity|].
  exact (@readgosfile_token_layout externals Ti_L3_object _ eq_refl).
Defined.

(** C7, the claim as stated fails: the file [/gos/Ti.K1] declares -1 rows
    of 2 columns and holds 13 tokens, not 9 + (-1) * 2 = 7; numpy infers
    2 rows, the parse returns a matrix of 2 rows and the constructor an
    object that holds it. *)
Lemma negative_row_count_is_accepted :
  exists self h g,
    snd (__init__ (FromString "Ti_K")) = Ok self
    /\ parse_gos_list (py_split (remove_cr Ti_K1)) = Ok (h, g)
    /\ gos_array self = Some g
    /\ List.length g = 2%nat
    /\ nrow h = (-1)%Z /\ ncol h = 2%Z
    /\ Z.of_nat (List.length (py_split (remove_cr Ti_K1))) = 13%Z
    /\ 13%Z <> (9 + nrow h * ncol h)%Z.
Proof.
  do 3 eexists. split; [reflexivity|]. split; [reflexivity|].
  split; [reflexivity|]. split; [reflexivity|].
  split; [reflexivity|]. split; [reflexivity|].
  split; [reflexivity|]. discriminate.
Qed.

End OnExample.

(** ** The limits and the collection half-angle *)

Section Angle.

Context {ext : Externals}.

(** What lines 193-200 return: [qmin] does not involve the angle, and
    [qmax] adds to the argument of its square root a term that is not
    negative, times the square of the sine of half the angle. *)
Lemma q_limits_Ok (angle gamma T E qmin qmax : R) :
  q_limits angle gamma T E = Ok (qmin, qmax) ->
  exists m s,
    0 <= m /\ 0 <= s
    /\ qmin = sqrt m / a0
    /\ qmax = sqrt (m + 4 * s * (sin (angle / 2)) ^ 2) / a0
    /\ forall angle' qmin' qmax',
         q_limits angle' gamma T E = Ok (qmin', qmax') ->
         qmin' = sqrt m / a0
         /\ qmax' = sqrt (m + 4 * s * (sin (angle' / 2)) ^ 2) / a0.
Proof.
  unfold q_limits.
  destruct (np_div (E ^ 2) _) as [a| |]; cbn [bind]; try discriminate.
  destruct (np_div (E ^ 3) _) as [b| |]; cbn [bind]; try discriminate.
  destruct (py_div T _) as [p02| |]; cbn [bind]; try discriminate.
  unfold np_sqrt.
  destruct (Rlt_dec _ 0) as [|Hs]; cbn [bind]; try discriminate.
  unfold math_sqrt at 1.
  destruct (Rlt_dec (a + b) 0) as [|Hm]; cbn [bind]; try discriminate.
  intros H. exists (a + b), (sqrt (p02 * (p02 - E / Rydberg * (gamma - E / 1022120)))).
  split; [now apply Rnot_lt_le|]. split; [apply sqrt_pos|].
  unfold math_sqrt in H.
  destruct (Rlt_dec _ 0); cbn [bind] in H; try discriminate H.
  injection H as <- <-. split; [reflexivity|]. split; [reflexivity|].
  intros angle' qmin' qmax'. unfold math_sqrt.
  destruct (Rlt_dec (a + b) 0); [contradiction|]. cbn [bind].
  destruct (Rlt_dec _ 0); cbn [bind]; try discriminate.
  intros H. injection H as <- <-. split; reflexivity.
Qed.

(** The upper limit the program computes does not decrease, and the
    lower one does not change, when the collection half-angle increases
    from 0 to pi. *)
Theorem q_limits_monotone_in_angle
  (gamma T E a b qmin_a qmax_a qmin_b qmax_b : R) :
  0 <= a -> a <= b -> b <= PI ->
  q_limits a gamma T E = Ok (qmin_a, qmax_a) ->
  q_limits b gamma T E = Ok (qmin_b, qmax_b) ->
  qmin_a = qmin_b /\ qmax_a <= qmax_b.
Proof.
  intros Ha Hab Hb H1 H2.
  destruct (q_limits_Ok _ _ _ _ H1) as (m & s & Hm & Hs & -> & -> & Hall).
  destruct (Hall _ _ _ H2) as [-> ->].
  split; [reflexivity|].
  pose proof a0_pos as Ha0.
  pose proof (sin_half_sqr_monotone Ha Hab Hb) as Hsin.
  apply Rmult_le_compat_r; [left; now apply Rinv_0_lt_compat|].
  apply sqrt_le_1_alt. nra.
Qed.

End Angle.

(** ** The scenario of the specification *)

Section OnScenario.

Import Example.

(** The kinematics are defined at the first row of the scenario, for a
    beam of 100 keV and every angle. *)
Lemma scenario_defined (angle : R) : spec_defined 100 angle (100 + (100 - 100)).
Proof.
  assert (Hp : 0 <= spec_p02 100 * spec_pp2 100 (100 + (100 - 100))).
  { apply Rmult_le_pos; left;
      unfold spec_pp2, spec_p02, spec_T, spec_gamma; cbn [Rydberg externals]; lra. }
  assert (Hm : 0 <= spec_qa0sqmin 100 (100 + (100 - 100))).
  { unfold spec_qa0sqmin, spec_T, spec_gamma. cbn [Rydberg externals]. lra. }
  unfold spec_defined.
  split; [unfold spec_gamma; lra|].
  split; [unfold spec_T, spec_gamma; cbn [Rydberg externals]; lra|].
  split; [unfold spec_T, spec_gamma; cbn [Rydberg externals]; lra|].
  split; [unfold spec_T, spec_gamma; cbn [Rydberg externals]; lra|].
  split; [exact Hp|]. split; [exact Hm|].
  unfold spec_qa0sqmax.
  pose proof (sqrt_pos (spec_p02 100 * spec_pp2 100 (100 + (100 - 100)))).
  pose proof (pow2_ge_0 (sin (angle / 2))). nra.
Qed.

(** Its lower limit, about 9e8, lies above the q-axis [1, 2, 3, 4]. *)
Lemma scenario_out_of_range :
  out_of_range [1; 2; 3; 4] (spec_qmin 100 (100 + (100 - 100))).
Proof.
  right. cbn [fold_right].
  assert (Hmax : Rmax 2 (Rmax 3 (Rmax 4 1)) = 4).
  { unfold Rmax. repeat (destruct (Rle_dec _ _); try lra). }
  rewrite Hmax. unfold spec_qmin.
  assert (Ha0 : 0 < a0) by apply a0_pos.
  assert (Hsqrt : 4 * a0 < sqrt (spec_qa0sqmin 100 (100 + (100 - 100)))).
  { rewrite <- (sqrt_pow2 (4 * a0)) at 1 by lra.
    apply sqrt_lt_1_alt. split; [apply pow2_ge_0|].
    unfold spec_qa0sqmin, spec_T, spec_gamma. cbn [Rydberg a0 externals]. lra. }
  apply Rmult_lt_reg_r with a0; [exact Ha0|].
  unfold Rdiv. rewrite Rmult_assoc, Rinv_l by lra. lra.
Qed.

(** A one-row table whose q-axis runs from 0 to 1e13 holds both limits of
    a 100 keV beam at the onset, for a half-angle of 0.01 rad. *)
Lemma wide_limits :
  0 < spec_qmin 100 (100 + (100 - 100))
  /\ spec_qmin 100 (100 + (100 - 100)) <= 1e13
  /\ 0 < spec_qmax 100 0.01 (100 + (100 - 100))
  /\ spec_qmax 100 0.01 (100 + (100 - 100)) <= 1e13.
Proof.
  assert (Ha0 : 0 < a0) by apply a0_pos.
  assert (Hm : 0 < spec_qa0sqmin 100 (100 + (100 - 100)) <= 1).
  { unfold spec_qa0sqmin, spec_T, spec_gamma. cbn [Rydberg externals]. lra. }
  assert (HP : 0 <= spec_p02 100 * spec_pp2 100 (100 + (100 - 100)) <= 10000 ^ 2).
  { assert (0 < spec_p02 100 <= 10000)
      by (unfold spec_p02, spec_T, spec_gamma; cbn [Rydberg externals]; lra).
    assert (0 < spec_pp2 100 (100 + (100 - 100)) <= 10000)
      by (unfold spec_pp2, spec_p02, spec_T, spec_gamma;
          cbn [Rydberg externals]; lra).
    nra. }
  assert (Hs : 0 <= sqrt (spec_p02 100 * spec_pp2 100 (100 + (100 - 100))) <= 10000).
  { split; [apply sqrt_pos|].
    rewrite <- (sqrt_pow2 10000) by lra. apply sqrt_le_1_alt. lra. }
  assert (Hsin : 0 <= (sin (0.01 / 2)) ^ 2 <= 1).
  { split; [apply pow2_ge_0|].
    pose proof (SIN_bound (0.01 / 2)). nra. }
  assert (HM : 0 < spec_qa0sqmax 100 0.01 (100 + (100 - 100)) <= 529 ^ 2).
  { unfold spec_qa0sqmax. nra. }
  assert (Hbound : forall x, 0 < x <= 529 ^ 2 -> 0 < sqrt x / a0 <= 1e13).
  { intros x [Hx0 Hx1]. split.
    - apply Rdiv_lt_0_compat; [now apply sqrt_lt_R0 | exact Ha0].
    - apply Rmult_le_reg_r with a0; [exact Ha0|].
      unfold Rdiv. rewrite Rmult_assoc, Rinv_l, Rmult_1_r by lra.
      apply Rle_trans with 529.
      + rewrite <- (sqrt_pow2 529) by lra. now apply sqrt_le_1_alt.
      + cbn [a0 externals]. lra. }
  unfold spec_qmin, spec_qmax.
  destruct (Hbound (spec_qa0sqmin 100 (100 + (100 - 100)))) as [? ?]; [lra|].
  destruct (Hbound (spec_qa0sqmax 100 0.01 (100 + (100 - 100)))) as [? ?]; [lra|].
  tauto.
Qed.

(** Every q between the ends of that axis is in range. *)
Lemma wide_in_range (q : R) : 0 <= q <= 1e13 -> ~ out_of_range [0; 1e13] q.
Proof.
  intros [H0 H1]. cbn [out_of_range fold_right].
  assert (Hmin : Rmin 1e13 0 = 0) by (apply Rmin_right; lra).
  assert (Hmax : Rmax 1e13 0 = 1e13) by (apply Rmax_left; lra).
  rewrite Hmin, Hmax. lra.
Qed.

Lemma strictly_between_false (qmin qmax q : R) :
  ~ (qmin < q < qmax) -> strictly_between qmin qmax q = false.
Proof.
  intros H. unfold strictly_between.
  destruct (Rlt_dec qmin q); [|reflexivity].
  destruct (Rlt_dec q qmax); [tauto | reflexivity].
Qed.

(** The row of that table is integrated: no step leaves its domain. *)
Lemma wide_row :
  exists v,
    integrateq_row (set_energy_shift (100 - 100) wide) (100 - 100) 0.01
                   (spec_gamma 100) (spec_T 100) 0 = Ok v.
Proof.
  destruct wide_limits as (Hmin0 & Hmin1 & Hmax0 & Hmax1).
  assert (Ha0 : 0 < a0) by apply a0_pos.
  unfold integrateq_row.
  cbn [set_energy_shift energy_axis qaxis gos_array wide attr bind index nth_error].
  rewrite (q_limits_defined (scenario_defined 0.01)). cbn [bind].
  cbn [get_qaxis_and_gos externals]. unfold GOSBase_get_qaxis_and_gos.
  destruct (out_of_range_dec _ (spec_qmin _ _)) as [Ho|_];
    [exfalso; revert Ho; apply wide_in_range; lra|].
  destruct (out_of_range_dec _ (spec_qmax _ _ _)) as [Ho|_];
    [exfalso; revert Ho; apply wide_in_range; lra|].
  cbn [index nth_error bind combine filter fst snd linear_interpolation].
  rewrite (@strictly_between_false _ _ 0) by (intros [? ?]; lra).
  rewrite (@strictly_between_false _ _ 1e13)
    by (intros [_ Hlt]; exact (Rlt_not_le _ _ Hlt Hmax1)).
  destruct (Rle_dec 0 (spec_qmin 100 (100 + (100 - 100)))); [|lra].
  destruct (Rle_dec (spec_qmin 100 (100 + (100 - 100))) 1e13); [|lra].
  destruct (Rle_dec 0 (spec_qmax 100 0.01 (100 + (100 - 100)))); [|lra].
  destruct (Rle_dec (spec_qmax 100 0.01 (100 + (100 - 100))) 1e13); [|lra].
  cbn [map app map_result bind]. unfold np_log.
  destruct (Rle_dec ((a0 * spec_qmin 100 (100 + (100 - 100))) ^ 2) 0) as [Hle|_];
    [exfalso; revert Hle; apply Rlt_not_le, pow_lt, Rmult_lt_0_compat;
     assumption|].
  destruct (Rle_dec ((a0 * spec_qmax 100 0.01 (100 + (100 - 100))) ^ 2) 0) as [Hle|_];
    [exfalso; revert Hle; apply Rlt_not_le, pow_lt, Rmult_lt_0_compat;
     assumption|].
  cbn [bind simps externals]. eexists. reflexivity.
Qed.

(** On that table the call returns an interpolant. *)
Lemma wide_returns : exists f, snd (integrateq wide 100 0.01 100) = Ok f.
Proof.
  destruct wide_row as [v Hv].
  unfold integrateq. cbn [onset_energy wide attr].
  unfold integrateq_qint.
  cbn [set_energy_shift energy_axis gos_array subshell_factor attr bind
       List.length repeat seq].
  change (1 + 100 / 511.06) with (spec_gamma 100).
  rewrite kinetic_T_spec.
  destruct (Req_dec_T ((spec_gamma 100) ^ 2) 0) as [Hz|_];
    [exfalso; revert Hz; unfold spec_gamma; lra|].
  cbn [bind integrateq_loop].
  fold wide in Hv |- *.
  set (row := integrateq_row _ _ _ _ _) in *.
  unfold wide at 1 2. cbn [energy_axis gos_array attr bind List.length repeat seq
       integrateq_loop].
  rewrite Hv. cbn [bind]. unfold list_set.
  cbn [List.length Nat.ltb Nat.leb firstn skipn app bind].
  unfold wide at 1. cbn [subshell_factor attr bind].
  unfold scale_qint, add_scalar. cbn [map map_result bind].
  rewrite np_div_Ok by lra. cbn [bind].
  rewrite np_div_Ok by (unfold spec_T, spec_gamma; lra).
  cbn [bind combine map fst snd interp1d externals]. eexists. reflexivity.
Qed.

(** C1 at a table on which the call returns: one energy, one row, and a
    q-axis that holds both limits. *)
Lemma integrateq_refines_spec_witness :
  table_of wide = Some wide_table
  /\ List.length (energyAxis wide_table) = List.length (gos wide_table)
  /\ (exists f, snd (integrateq wide 100 0.01 100) = Ok f)
  /\ to_option (snd (integrateq wide 100 0.01 100))
     = spec_integrate wide_table 100 0.01 100.
Proof.
  split; [reflexivity|]. split; [reflexivity|]. split; [exact wide_returns|].
  exact (@integrateq_refines_spec externals wide wide_table 100 0.01 100
           eq_refl eq_refl).
Defined.

(** C4 at the first row of the scenario. *)
Lemma q_out_of_range_fails_witness :
  (forall qAxis gos i qmin qmax,
      get_qaxis_and_gos qAxis gos i qmin qmax
      = GOSBase_get_qaxis_and_gos qAxis gos i qmin qmax)
  /\ table_of scenario = Some scenario_table
  /\ nth_error (energyAxis scenario_table) 0 = Some 100
  /\ spec_defined 100 0.01 (100 + (100 - 100))
  /\ out_of_range (qAxis scenario_table) (spec_qmin 100 (100 + (100 - 100)))
  /\ integrateq_row (set_energy_shift (100 - 100) scenario) (100 - 100) 0.01
                    (spec_gamma 100) (spec_T 100) 0
     = Raise QOutOfRangeError
  /\ (forall f, snd (integrateq scenario 100 0.01 100) <> Ok f)
  /\ snd (integrateq scenario 100 0.01 100) = Raise QOutOfRangeError.
Proof.
  pose proof (@q_out_of_range_fails externals (fun _ _ _ _ _ => eq_refl)
                scenario scenario_table 100 0.01 100 0%nat 100
                eq_refl eq_refl eq_refl (scenario_defined 0.01)
                (or_introl scenario_out_of_range)) as (Hrow & Hnot & Hraise).
  split; [intros; reflexivity|]. split; [reflexivity|]. split; [reflexivity|].
  split; [exact (scenario_defined 0.01)|]. split; [exact scenario_out_of_range|].
  split; [exact Hrow|]. split; [exact Hnot|].
  apply Hraise. intros j Hj. inversion Hj.
Defined.

(** C3, the claim as stated fails: a call on the scenario, whose
    [energy_shift] is not assigned, returns it with [energy_shift]
    assigned. *)
Lemma integrateq_writes_to_the_object :
  energy_shift scenario = None
  /\ energy_shift (fst (integrateq scenario 100 0.01 100)) = Some (100 - 100)
  /\ fst (integrateq scenario 100 0.01 100) <> scenario.
Proof.
  assert (H : energy_shift (fst (integrateq scenario 100 0.01 100))
              = Some (100 - 100)).
  { rewrite integrateq_object. cbn [onset_energy scenario].
    now destruct (integrateq_qint _ _ _ _) as [[E q]| |]. }
  split; [reflexivity|]. split; [exact H|].
  intros Heq. rewrite Heq in H. discriminate H.
Qed.

(** The limits at the first row of the scenario, for the angles 0.01 and
    0.02. *)
Lemma q_limits_monotone_in_angle_witness :
  0 <= 0.01 /\ 0.01 <= 0.02 /\ 0.02 <= PI
  /\ q_limits 0.01 (spec_gamma 100) (spec_T 100) (100 + (100 - 100))
     = Ok (spec_qmin 100 (100 + (100 - 100)),
           spec_qmax 100 0.01 (100 + (100 - 100)))
  /\ q_limits 0.02 (spec_gamma 100) (spec_T 100) (100 + (100 - 100))
     = Ok (spec_qmin 100 (100 + (100 - 100)),
           spec_qmax 100 0.02 (100 + (100 - 100)))
  /\ spec_qmin 100 (100 + (100 - 100)) = spec_qmin 100 (100 + (100 - 100))
  /\ spec_qmax 100 0.01 (100 + (100 - 100))
     <= spec_qmax 100 0.02 (100 + (100 - 100)).
Proof.
  assert (H1 : 0 <= 0.01) by lra.
  assert (H2 : 0.01 <= 0.02) by lra.
  assert (H3 : 0.02 <= PI) by (pose proof PI2_1; lra).
  do 3 (split; [assumption|]).
  split; [exact (q_limits_defined (scenario_defined 0.01))|].
  split; [exact (q_limits_defined (scenario_defined 0.02))|].
  exact (@q_limits_monotone_in_angle externals _ _ _ _ _ _ _ _ _ H1 H2 H3
           (q_limits_defined (scenario_defined 0.01))
           (q_limits_defined (scenario_defined 0.02))).
Defined.

End OnScenario.

(** ** Operations outside their domain that raise nothing *)

Section Unguarded.

Context {ext : Externals}.

(** At an energy loss at which the divisions of lines 193-196 are
    defined, [qa0sqmin] is not negative and the product [p02 * pp2] is
    negative, lines 193-200 raise nothing and clamp nothing: [np.sqrt]
    returns NaN and the program goes on with it ([math.sqrt] takes the
    square root of [qa0sqmin] and hands the NaN of [qa0sqmax] on). *)
Theorem negative_sqrt_argument_is_not_an_error (E0 angle E : R) :
  4 * Rydberg * spec_T E0 <> 0 ->
  8 * (spec_gamma E0) ^ 3 * Rydberg * (spec_T E0) ^ 2 <> 0 ->
  Rydberg * (1 - 2 * spec_T E0 / 511060) <> 0 ->
  0 <= spec_qa0sqmin E0 E ->
  spec_p02 E0 * spec_pp2 E0 E < 0 ->
  q_limits angle (spec_gamma E0) (spec_T E0) E = NonFinite
  /\ math_sqrt (spec_qa0sqmin E0 E) = Ok (sqrt (spec_qa0sqmin E0 E)).
Proof.
  intros d1 d2 d3 Hmin Hneg. split; [|now apply math_sqrt_Ok].
  unfold q_limits.
  unfold spec_pp2, spec_p02 in Hneg.
  rewrite (np_div_Ok _ d1), (np_div_Ok _ d2). cbn [bind].
  rewrite (py_div_Ok _ d3). cbn [bind].
  unfold np_sqrt. destruct (Rlt_dec _ 0); [reflexivity | contradiction].
Qed.

(** The scaling of line 207 has no guard against a shifted energy that is
    0: it raises nothing, and its result is not finite. *)
Theorem scaling_by_zero_energy_is_not_an_error (E qint : list R) (T f : R) :
  In 0 E -> scale_qint E qint T f = NonFinite.
Proof.
  intros Hin. unfold scale_qint.
  assert (H : map_result
                (fun Ej => c1 <- np_div (4 * PI * a0 ^ 2 * Rydberg ^ 2) Ej ;;
                           c2 <- np_div c1 T ;;
                           Ok (c2 * f * 1e28))%result E = NonFinite).
  { induction E as [|Ej E IH]; [contradiction|].
    cbn [map_result]. unfold np_div at 1.
    destruct (Req_dec_T Ej 0) as [|Hne]; [reflexivity|]. cbn [bind].
    unfold np_div at 1.
    destruct (Req_dec_T T 0) as [|HT]; [reflexivity|]. cbn [bind].
    rewrite IH; [reflexivity|].
    destruct Hin as [Heq|Hin]; [now elim Hne | exact Hin]. }
  now rewrite H.
Qed.

End Unguarded.

Section OnUnguarded.

Import Example.

(** An energy loss of 200 keV from a beam of 100 keV. *)
Lemma negative_sqrt_argument_is_not_an_error_witness :
  4 * Rydberg * spec_T 100 <> 0
  /\ 0 <= spec_qa0sqmin 100 200000
  /\ spec_p02 100 * spec_pp2 100 200000 < 0
  /\ q_limits 0.01 (spec_gamma 100) (spec_T 100) 200000 = NonFinite
  /\ math_sqrt (spec_qa0sqmin 100 200000) = Ok (sqrt (spec_qa0sqmin 100 200000)).
Proof.
  assert (d1 : 4 * Rydberg * spec_T 100 <> 0)
    by (unfold spec_T, spec_gamma; cbn [Rydberg externals]; lra).
  assert (d2 : 8 * (spec_gamma 100) ^ 3 * Rydberg * (spec_T 100) ^ 2 <> 0)
    by (unfold spec_T, spec_gamma; cbn [Rydberg externals]; lra).
  assert (d3 : Rydberg * (1 - 2 * spec_T 100 / 511060) <> 0)
    by (unfold spec_T, spec_gamma; cbn [Rydberg externals]; lra).
  assert (Hmin : 0 <= spec_qa0sqmin 100 200000)
    by (unfold spec_qa0sqmin, spec_T, spec_gamma; cbn [Rydberg externals]; lra).
  assert (Hneg : spec_p02 100 * spec_pp2 100 200000 < 0).
  { assert (Hp : 0 < spec_p02 100)
      by (unfold spec_p02, spec_T, spec_gamma; cbn [Rydberg externals]; lra).
    assert (Hpp : spec_pp2 100 200000 < 0)
      by (unfold spec_pp2, spec_p02, spec_T, spec_gamma;
          cbn [Rydberg externals]; lra).
    nra. }
  split; [exact d1|]. split; [exact Hmin|]. split; [exact Hneg|].
  exact (@negative_sqrt_argument_is_not_an_error externals 100 0.01 200000
           d1 d2 d3 Hmin Hneg).
Defined.

(** A shifted energy axis that holds a 0. *)
Lemma scaling_by_zero_energy_is_not_an_error_witness :
  In 0 [10; 0] /\ scale_qint [10; 0] [1; 1] (spec_T 100) 1 = NonFinite.
Proof.
  assert (Hin : In 0 [10; 0]) by (right; left; reflexivity).
  split; [exact Hin|].
  exact (@scaling_by_zero_energy_is_not_an_error externals [10; 0] [1; 1]
           (spec_T 100) 1 Hin).
Defined.

(** The family L2,3. *)
Lemma family_sum_ok_but_N67_witness :
  In "L2,3"%string families /\ "L2,3"%string <> "N6,7"%string
  /\ family_sum_ok "L2,3" = true.
Proof.
  assert (Hin : In "L2,3"%string families) by (left; reflexivity).
  assert (Hne : "L2,3"%string <> "N6,7"%string) by discriminate.
  split; [exact Hin|]. split; [exact Hne|].
  exact (@family_sum_ok_but_N67 "L2,3" Hin Hne).
Defined.

End OnUnguarded.

(** ** The tables of the edge families *)

Section FamilyTables.

Local Open Scope string_scope.

(** The combined label of a family and its two members name the same
    table, the one of the second member: they are read from one file. *)
Theorem family_shares_table (label m1 m2 : string) :
  In label families -> family_members label = Some (m1, m2) ->
  exists e e1 e2,
    conventions_get label = Ok e /\ conventions_get m1 = Ok e1
    /\ conventions_get m2 = Ok e2
    /\ table e = m2 /\ table e1 = m2 /\ table e2 = m2.
Proof.
  unfold families; simpl. intros H Hm.
  repeat (destruct H as [H|H];
          [subst label; injection Hm as <- <-; do 3 eexists;
           repeat split; reflexivity|]).
  contradiction.
Qed.

(** For every label but K, the table of its entry is itself a label of
    the convention table, with that same table and the factor 1: a factor
    is relative to the tabulated edge. *)
Theorem tabulated_edge_has_factor_1 (label : string) (e : ConventionEntry) :
  conventions_get label = Ok e -> label <> "K" ->
  conventions_get (table e) = Ok {| table := table e; factor := 1 |}.
Proof.
  intros H Hne. unfold conventions_get in H.
  destruct (lookup label conventions) as [e'|] eqn:Hl; [|discriminate H].
  injection H as ->.
  assert (Hin : In label convention_keys).
  { destruct (in_dec string_dec label convention_keys) as [Hin|Hnot]; [exact Hin|].
    apply lookup_None_notin in Hnot. congruence. }
  unfold convention_keys in Hin; simpl in Hin.
  repeat (destruct Hin as [Hin|Hin];
          [subst label; try (now elim Hne); injection Hl as <-; reflexivity|]).
  contradiction.
Qed.

End FamilyTables.

(** ** The domain of the limits of the integral *)

Section BeamEnergy.

Context {ext : Externals}.

(** The kinematics in closed form, for a positive beam energy. *)
Lemma spec_gamma_gt_1 (E0 : R) : 0 < E0 -> 1 < spec_gamma E0.
Proof.
  intros H. unfold spec_gamma.
  assert (0 < E0 / 511.06) by (apply Rdiv_lt_0_compat; lra). lra.
Qed.

Lemma spec_T_closed (E0 : R) :
  0 < E0 ->
  spec_T E0 * (spec_gamma E0) ^ 2 = 255530 * ((spec_gamma E0) ^ 2 - 1).
Proof.
  intros H. pose proof (spec_gamma_gt_1 H) as Hg.
  unfold spec_T. field. nra.
Qed.

Lemma spec_T_bounds (E0 : R) : 0 < E0 -> 0 < spec_T E0 < 255530.
Proof.
  intros H. pose proof (spec_gamma_gt_1 H) as Hg.
  pose proof (spec_T_closed H) as Hc.
  assert (Hg2 : 1 < (spec_gamma E0) ^ 2) by nra.
  split.
  - apply Rmult_lt_reg_r with ((spec_gamma E0) ^ 2); [lra|]. rewrite Hc. lra.
  - apply Rmult_lt_reg_r with ((spec_gamma E0) ^ 2); [lra|]. rewrite Hc. lra.
Qed.

Lemma spec_p02_closed (E0 : R) :
  0 < E0 ->
  spec_p02 E0 = 255530 * ((spec_gamma E0) ^ 2 - 1) / Rydberg.
Proof.
  intros H. pose proof (spec_gamma_gt_1 H) as Hg. pose proof Rydberg_pos as HR.
  unfold spec_p02, spec_T. field. split; [|split]; nra.
Qed.

Lemma spec_pp2_closed (E0 E : R) :
  0 < E0 ->
  spec_pp2 E0 E
  = ((511060 + 1000 * E0 - E) ^ 2 - 511060 ^ 2) / (1022120 * Rydberg).
Proof.
  intros H. pose proof Rydberg_pos as HR.
  unfold spec_pp2. rewrite (spec_p02_closed H). unfold spec_gamma.
  replace 511.06 with (51106 / 100) by lra. field. lra.
Qed.


Lemma spec_qa0sqmin_nonneg (E0 E : R) :
  0 < E0 -> 0 <= E -> 0 <= spec_qa0sqmin E0 E.
Proof.
  intros H HE. pose proof (spec_gamma_gt_1 H) as Hg.
  pose proof (spec_T_bounds H) as [HT _]. pose proof Rydberg_pos as HR.
  unfold spec_qa0sqmin.
  assert (0 <= E ^ 2) by apply pow2_ge_0.
  assert (0 <= E ^ 3) by (apply pow_le; exact HE).
  assert (0 < 4 * Rydberg * spec_T E0) by nra.
  assert (0 < (spec_gamma E0) ^ 3) by (apply pow_lt; lra).
  assert (0 < (spec_T E0) ^ 2) by (apply pow_lt; lra).
  assert (0 < 8 * (spec_gamma E0) ^ 3 * Rydberg * (spec_T E0) ^ 2).
  { apply Rmult_lt_0_compat; [|assumption].
    apply Rmult_lt_0_compat; [|assumption]. lra. }
  apply Rplus_le_le_0_compat; apply Rmult_le_pos; try assumption;
    left; now apply Rinv_0_lt_compat.
Qed.

Lemma spec_divisors (E0 : R) :
  0 < E0 ->
  (spec_gamma E0) ^ 2 <> 0
  /\ 4 * Rydberg * spec_T E0 <> 0
  /\ 8 * (spec_gamma E0) ^ 3 * Rydberg * (spec_T E0) ^ 2 <> 0
  /\ Rydberg * (1 - 2 * spec_T E0 / 511060) <> 0.
Proof.
  intros H. pose proof (spec_gamma_gt_1 H) as Hg.
  pose proof (spec_T_bounds H) as [HT HT']. pose proof Rydberg_pos as HR.
  split; [nra|]. split; [nra|]. split.
  - assert (0 < (spec_gamma E0) ^ 3) by (apply pow_lt; lra).
    assert (0 < (spec_T E0) ^ 2) by (apply pow_lt; lra).
    apply Rgt_not_eq. apply Rmult_lt_0_compat; [|assumption].
    apply Rmult_lt_0_compat; [|assumption]. lra.
  - nra.
Qed.

Lemma spec_p02_pos (E0 : R) : 0 < E0 -> 0 < spec_p02 E0.
Proof.
  intros H. pose proof (spec_gamma_gt_1 H) as Hg. pose proof Rydberg_pos as HR.
  rewrite (spec_p02_closed H). apply Rdiv_lt_0_compat; nra.
Qed.

(** Within the beam energy the kinematics are defined. *)
Lemma spec_defined_within_beam_energy (E0 angle E : R) :
  0 < E0 -> 0 <= E <= 1000 * E0 -> spec_defined E0 angle E.
Proof.
  intros H [HE HE'].
  destruct (spec_divisors H) as (d0 & d1 & d2 & d3).
  pose proof (spec_p02_pos H) as Hp. pose proof Rydberg_pos as HR.
  pose proof (spec_qa0sqmin_nonneg H HE) as Hm.
  assert (Hpp : 0 <= spec_pp2 E0 E).
  { rewrite (spec_pp2_closed _ H). apply Rmult_le_pos; [nra|].
    left. apply Rinv_0_lt_compat. lra. }
  assert (Hs : 0 <= spec_p02 E0 * spec_pp2 E0 E) by (apply Rmult_le_pos; lra).
  unfold spec_defined. do 4 (split; [assumption|]).
  split; [exact Hs|]. split; [exact Hm|].
  unfold spec_qa0sqmax.
  pose proof (sqrt_pos (spec_p02 E0 * spec_pp2 E0 E)).
  pose proof (pow2_ge_0 (sin (angle / 2))). nra.
Qed.

(** For a positive beam energy [E0] (keV) and an energy loss [E] (eV)
    from 0 up to the beam energy, line 189 and lines 193-200 are defined
    over the reals for every angle: [T] lies strictly between 0 and
    255530, and the limits satisfy [0 <= qmin <= qmax]. *)
Theorem q_limits_within_beam_energy (angle E0 E : R) :
  0 < E0 -> 0 <= E <= 1000 * E0 ->
  exists T qmin qmax,
    kinetic_T (1 + E0 / 511.06) = Ok T
    /\ 0 < T < 255530
    /\ q_limits angle (1 + E0 / 511.06) T E = Ok (qmin, qmax)
    /\ 0 <= qmin <= qmax.
Proof.
  intros H HE.
  pose proof (spec_defined_within_beam_energy angle H HE) as D.
  exists (spec_T E0), (spec_qmin E0 E), (spec_qmax E0 angle E).
  change (1 + E0 / 511.06) with (spec_gamma E0).
  split.
  { rewrite kinetic_T_spec.
    destruct (Req_dec_T ((spec_gamma E0) ^ 2) 0) as [Hz|_]; [|reflexivity].
    now destruct (spec_divisors H) as (d0 & _). }
  split; [exact (spec_T_bounds H)|].
  split; [exact (q_limits_defined D)|].
  pose proof a0_pos as Ha0.
  destruct D as (_ & _ & _ & _ & Hs & Hm & HM).
  unfold spec_qmin, spec_qmax. split.
  - apply Rmult_le_pos; [apply sqrt_pos | left; now apply Rinv_0_lt_compat].
  - apply Rmult_le_compat_r; [left; now apply Rinv_0_lt_compat|].
    apply sqrt_le_1_alt. unfold spec_qa0sqmax.
    pose proof (sqrt_pos (spec_p02 E0 * spec_pp2 E0 E)).
    pose proof (pow2_ge_0 (sin (angle / 2))). nra.
Qed.

(** An energy loss above the beam energy (and below the beam energy plus
    1022120 eV) is not rejected: [pp2] is negative there, [np.sqrt]
    yields NaN, and lines 193-200 raise nothing. *)
Theorem energy_loss_above_beam_energy_is_not_an_error (angle E0 E : R) :
  0 < E0 -> 1000 * E0 < E < 1000 * E0 + 1022120 ->
  exists T,
    kinetic_T (1 + E0 / 511.06) = Ok T
    /\ q_limits angle (1 + E0 / 511.06) T E = NonFinite.
Proof.
  intros H [HE HE'].
  destruct (spec_divisors H) as (d0 & d1 & d2 & d3).
  pose proof (spec_p02_pos H) as Hp. pose proof Rydberg_pos as HR.
  exists (spec_T E0). change (1 + E0 / 511.06) with (spec_gamma E0).
  split.
  { rewrite kinetic_T_spec.
    now destruct (Req_dec_T ((spec_gamma E0) ^ 2) 0). }
  assert (Hpp : spec_pp2 E0 E < 0).
  { rewrite (spec_pp2_closed _ H).
    assert (Hn : (511060 + 1000 * E0 - E) ^ 2 - 511060 ^ 2 < 0) by nra.
    assert (Hi : 0 < / (1022120 * Rydberg)) by (apply Rinv_0_lt_compat; lra).
    unfold Rdiv. nra. }
  assert (Hneg : spec_p02 E0 * spec_pp2 E0 E < 0) by nra.
  unfold q_limits. unfold spec_pp2, spec_p02 in Hneg.
  rewrite (np_div_Ok _ d1), (np_div_Ok _ d2). cbn [bind].
  rewrite (py_div_Ok _ d3). cbn [bind].
  unfold np_sqrt. destruct (Rlt_dec _ 0); [reflexivity | contradiction].
Qed.

End BeamEnergy.

(** ** Calls of [integrateq] on one object *)

Section Calls.

Context {ext : Externals}.

(** [integrateq] reads four attributes of the object besides the onset
    energy. *)
Lemma integrateq_qint_reads (self self' : HartreeSlaterGOS) (es angle E0 : R) :
  energy_axis self' = energy_axis self ->
  gos_array self' = gos_array self ->
  qaxis self' = qaxis self ->
  subshell_factor self' = subshell_factor self ->
  integrateq_qint self' es angle E0 = integrateq_qint self es angle E0.
Proof.
  destruct self, self'. cbn [energy_axis gos_array qaxis subshell_factor].
  intros -> -> -> ->. reflexivity.
Qed.

(** What a call returns does not depend on the calls made before it on
    the same object, and a call repeated with the same arguments returns
    the same result and leaves the same object: the two attributes that
    [integrateq] writes are attributes it never reads. *)
Theorem integrateq_forgets_earlier_calls
  (self : HartreeSlaterGOS) (onset angle E0 onset' angle' E0' : R) :
  snd (integrateq (fst (integrateq self onset angle E0)) onset' angle' E0')
  = snd (integrateq self onset' angle' E0')
  /\ integrateq (fst (integrateq self onset angle E0)) onset angle E0
     = integrateq self onset angle E0.
Proof.
  assert (Hfst : onset_energy (fst (integrateq self onset angle E0)) = onset_energy self
     /\ energy_axis (fst (integrateq self onset angle E0)) = energy_axis self
     /\ gos_array (fst (integrateq self onset angle E0)) = gos_array self
     /\ qaxis (fst (integrateq self onset angle E0)) = qaxis self
     /\ subshell_factor (fst (integrateq self onset angle E0)) = subshell_factor self).
  { rewrite integrateq_object.
    destruct (onset_energy self) as [so|] eqn:Hso; [|repeat split; assumption].
    cbv zeta. destruct (integrateq_qint _ _ _ _) as [[E q]| |]; simpl;
      repeat split; assumption. }
  destruct Hfst as (Ho & Hea & Hg & Hq & Hf).
  split.
  - unfold integrateq at 1 3. rewrite Ho.
    destruct (onset_energy self) as [so|]; cbn [attr snd]; [|reflexivity].
    rewrite (@integrateq_qint_reads (set_energy_shift (onset' - so) self)
               (set_energy_shift (onset' - so) (fst (integrateq self onset angle E0))))
      by assumption.
    now destruct (integrateq_qint _ _ _ _) as [[E q]| |].
  - unfold integrateq at 1. rewrite Ho.
    destruct (onset_energy self) as [so|] eqn:Hso; cbn [attr].
    + rewrite (@integrateq_qint_reads (set_energy_shift (onset - so) self)
               (set_energy_shift (onset - so) (fst (integrateq self onset angle E0))))
        by assumption.
      unfold integrateq. rewrite Hso. cbn [attr].
      destruct (integrateq_qint _ _ _ _) as [[E q]| |]; reflexivity.
    + unfold integrateq. rewrite Hso. reflexivity.
Qed.

(** A beam energy of -511.06 keV makes [gamma] 0: line 189 raises
    [ZeroDivisionError], after [energy_shift] has been assigned and before
    any row is read. *)
Theorem zero_gamma_raises (self : HartreeSlaterGOS) (onset angle so : R) (ea : list R) :
  onset_energy self = Some so -> energy_axis self = Some ea ->
  integrateq self onset angle (-511.06)
  = (set_energy_shift (onset - so) self, Raise ZeroDivisionError).
Proof.
  intros Hso Hea. unfold integrateq. rewrite Hso. cbn [attr].
  unfold integrateq_qint. cbn [set_energy_shift energy_axis]. rewrite Hea.
  cbn [attr bind]. unfold kinetic_T, py_div.
  destruct (Req_dec_T ((1 + -511.06 / 511.06) ^ 2) 0) as [_|Hne];
    [reflexivity|].
  exfalso. apply Hne. lra.
Qed.

End Calls.

(** ** The subshell factor *)

Section Scaling.

Context {ext : Externals}.

Lemma scale_list_factor (E : list R) (T f : R) :
  map_result (fun Ej => c1 <- np_div (4 * PI * a0 ^ 2 * Rydberg ^ 2) Ej ;;
                        c2 <- np_div c1 T ;;
                        Ok (c2 * f * 1e28))%result E
  = (sc <- map_result (fun Ej => c1 <- np_div (4 * PI * a0 ^ 2 * Rydberg ^ 2) Ej ;;
                                 c2 <- np_div c1 T ;;
                                 Ok (c2 * 1 * 1e28)) E ;;
     Ok (map (fun x => x * f) sc))%result.
Proof.
  induction E as [|Ej E IH]; [reflexivity|].
  cbn [map_result].
  destruct (np_div (4 * PI * a0 ^ 2 * Rydberg ^ 2) Ej) as [c1| |];
    cbn [bind]; try reflexivity.
  destruct (np_div c1 T) as [c2| |]; cbn [bind]; try reflexivity.
  rewrite IH. clear IH.
  destruct (map_result _ E) as [sc| |]; cbn [bind map]; try reflexivity.
  f_equal. f_equal. ring.
Qed.

Lemma combine_scaled (qint sc : list R) (f : R) :
  map (fun qs => fst qs * snd qs) (combine qint (map (fun x => x * f) sc))
  = map (fun x => x * f) (map (fun qs => fst qs * snd qs) (combine qint sc)).
Proof.
  revert sc. induction qint as [|q qint IH]; intros [|s sc]; try reflexivity.
  cbn [combine map fst snd]. rewrite IH. f_equal. ring.
Qed.

(** The scaling of line 207 is linear in the subshell factor. *)
Lemma scale_qint_factor (E qint : list R) (T f : R) :
  scale_qint E qint T f
  = (q1 <- scale_qint E qint T 1 ;; Ok (map (fun x => x * f) q1))%result.
Proof.
  unfold scale_qint. rewrite scale_list_factor.
  destruct (map_result _ E) as [sc| |]; cbn [bind]; try reflexivity.
  now rewrite combine_scaled.
Qed.

(** Lines 185-208 with the factor [f] and with the factor 1. *)
Lemma integrateq_qint_factor (self : HartreeSlaterGOS) (f : Q) (es angle E0 : R) :
  integrateq_qint (set_subshell_factor f self) es angle E0
  = ('(E, q1) <- integrateq_qint (set_subshell_factor 1 self) es angle E0 ;;
     Ok (E, map (fun x => x * Q2R f) q1))%result.
Proof.
  unfold integrateq_qint.
  cbn [set_subshell_factor energy_axis gos_array subshell_factor].
  destruct (energy_axis self) as [ea|]; cbn [attr bind]; [|reflexivity].
  destruct (kinetic_T _) as [T| |]; cbn [bind]; try reflexivity.
  destruct (gos_array self) as [g|]; cbn [attr bind]; [|reflexivity].
  assert (Hrow : integrateq_row (set_subshell_factor f self) es angle (1 + E0 / 511.06) T
                 = integrateq_row (set_subshell_factor 1 self) es angle (1 + E0 / 511.06) T)
    by reflexivity.
  rewrite Hrow.
  destruct (integrateq_loop _ _ _) as [q| |]; cbn [bind]; try reflexivity.
  rewrite scale_qint_factor.
  replace (Q2R 1) with 1 by (unfold Q2R; simpl; lra).
  destruct (scale_qint _ q T 1) as [q1| |]; reflexivity.
Qed.

(** The [qint] a call stores is linear in the subshell factor: when the
    call returns on the object with factor 1, the call on the object with
    factor [f] stores the same array with every entry multiplied by
    [f]. *)
Theorem integrateq_scales_with_subshell_factor
  (self : HartreeSlaterGOS) (f : Q) (onset angle E0 : R) (r : interpolant) :
  snd (integrateq (set_subshell_factor 1 self) onset angle E0) = Ok r ->
  exists q1,
    qint (fst (integrateq (set_subshell_factor 1 self) onset angle E0)) = Some q1
    /\ qint (fst (integrateq (set_subshell_factor f self) onset angle E0))
       = Some (map (fun x => x * Q2R f) q1).
Proof.
  unfold integrateq. cbn [set_subshell_factor onset_energy].
  destruct (onset_energy self) as [so|]; cbn [attr]; [|discriminate].
  change (set_energy_shift (onset - so) (set_subshell_factor f self))
    with (set_subshell_factor f (set_energy_shift (onset - so) self)).
  change (set_energy_shift (onset - so) (set_subshell_factor 1 self))
    with (set_subshell_factor 1 (set_energy_shift (onset - so) self)).
  rewrite (integrateq_qint_factor _ f).
  destruct (integrateq_qint _ _ _ _) as [[E q1]| |]; cbn [bind fst snd];
    try discriminate.
  intros _. exists q1. split; reflexivity.
Qed.

End Scaling.

(** ** Rows of the GOS and energies of the axis *)

Lemma list_set_length (l l' : list R) (k : nat) (v : R) :
  list_set l k v = Ok l' -> (k < List.length l)%nat /\ List.length l' = List.length l.
Proof.
  unfold list_set. destruct (Nat.ltb_spec k (List.length l)) as [Hk|]; [|discriminate].
  intros H. split; [exact Hk|].
  assert (Hl : l' = (firstn k l ++ v :: skipn (S k) l)%list) by congruence.
  rewrite Hl, length_app, length_firstn, Nat.min_l by lia.
  change (List.length (v :: skipn (S k) l)) with (S (List.length (skipn (S k) l))).
  rewrite length_skipn. lia.
Qed.

(** The loop stores one value per row: with more rows than [qint] has
    entries it does not come to its end. *)
Lemma integrateq_loop_overrun (row : nat -> result R) (n k : nat) (qint qint' : list R) :
  (k <= List.length qint)%nat ->
  integrateq_loop row (seq k n) qint = Ok qint' ->
  (k + n <= List.length qint)%nat.
Proof.
  revert k qint. induction n as [|n IH]; intros k qint Hk; [lia|].
  cbn [seq integrateq_loop].
  destruct (row k) as [v| |]; cbn [bind]; try discriminate.
  destruct (list_set qint k v) as [q1| |] eqn:Hset; cbn [bind]; try discriminate.
  apply list_set_length in Hset. destruct Hset as [Hlt Hlen].
  intros H. apply IH in H; lia.
Qed.

Lemma nth_error_scaled (qint sc : list R) (j : nat) (s : R) :
  nth_error qint j = Some 0 -> nth_error sc j = Some s ->
  nth_error (map (fun qs => fst qs * snd qs) (combine qint sc)) j = Some 0.
Proof.
  revert sc j. induction qint as [|q qint IH]; intros [|s0 sc] [|j] Hq Hs;
    try discriminate.
  - cbn [combine map nth_error fst snd] in *.
    injection Hq as ->. f_equal. ring.
  - cbn [combine map nth_error] in *. now apply IH.
Qed.

Section Shape.

Context {ext : Externals}.

Lemma scale_qint_Ok (E qint q : list R) (T f : R) :
  scale_qint E qint T f = Ok q ->
  List.length q = Nat.min (List.length qint) (List.length E)
  /\ forall j, nth_error qint j = Some 0 -> (j < List.length E)%nat ->
       nth_error q j = Some 0.
Proof.
  unfold scale_qint.
  destruct (map_result _ E) as [sc| |] eqn:Hsc; cbn [bind]; try discriminate.
  apply map_result_Ok, Forall2_same_length in Hsc.
  intros H. injection H as <-. split.
  - rewrite length_map, length_combine. lia.
  - intros j Hj HjE.
    destruct (nth_error sc j) as [s|] eqn:Hn.
    + exact (nth_error_scaled _ _ _ Hj Hn).
    + apply nth_error_None in Hn. lia.
Qed.

(** What the loop and the scaling leave in [qint]: one entry per energy
    of the axis, and 0 past the last row of the GOS. *)
Lemma integrateq_qint_shape (self : HartreeSlaterGOS) (es angle E0 : R)
  (ea : list R) (g : list (list R)) (E q : list R) :
  energy_axis self = Some ea -> gos_array self = Some g ->
  integrateq_qint self es angle E0 = Ok (E, q) ->
  (List.length g <= List.length ea)%nat
  /\ List.length q = List.length ea
  /\ forall j, (List.length g <= j < List.length ea)%nat -> nth_error q j = Some 0.
Proof.
  intros Hea Hg. unfold integrateq_qint. rewrite Hea, Hg. cbn [attr bind].
  destruct (kinetic_T _) as [T| |]; cbn [bind]; try discriminate.
  destruct (integrateq_loop _ _ _) as [q0| |] eqn:Hloop; cbn [bind];
    try discriminate.
  destruct (subshell_factor self) as [f|]; cbn [attr bind]; [|discriminate].
  destruct (scale_qint _ q0 T (Q2R f)) as [q1| |] eqn:Hscale; cbn [bind];
    try discriminate.
  intros H. injection H as _ <-.
  pose proof (@integrateq_loop_overrun _ _ 0 _ _ (Nat.le_0_l _) Hloop) as Hrows.
  rewrite repeat_length in Hrows. cbn [Nat.add] in Hrows.
  rewrite integrateq_loop_seq in Hloop by (rewrite repeat_length; lia).
  destruct (map_result _ (seq 0 _)) as [vs| |] eqn:Hvs; cbn [bind] in Hloop;
    try discriminate Hloop.
  apply map_result_Ok, Forall2_same_length in Hvs. rewrite length_seq in Hvs.
  assert (Hq0 : q0 = (vs ++ skipn (List.length g) (repeat 0 (List.length ea)))%list)
    by (cbn [firstn app Nat.add] in Hloop; congruence).
  apply scale_qint_Ok in Hscale. destruct Hscale as [Hlen Hzero].
  unfold add_scalar in Hlen, Hzero. rewrite length_map in Hlen, Hzero.
  assert (Hlen0 : List.length q0 = List.length ea).
  { rewrite Hq0, length_app, length_skipn, repeat_length. lia. }
  split; [exact Hrows|]. split; [lia|].
  intros j Hj. apply Hzero; [|lia].
  rewrite Hq0, nth_error_app2 by lia.
  rewrite nth_error_skipn, nth_error_repeat by lia. reflexivity.
Qed.

(** A call that returns has stored the [qint] of lines 185-208. *)
Lemma integrateq_returns_qint (self : HartreeSlaterGOS) (onset angle E0 : R)
  (f : interpolant) :
  snd (integrateq self onset angle E0) = Ok f ->
  exists so E q,
    onset_energy self = Some so
    /\ integrateq_qint (set_energy_shift (onset - so) self) (onset - so) angle E0
       = Ok (E, q)
    /\ qint (fst (integrateq self onset angle E0)) = Some q.
Proof.
  unfold integrateq.
  destruct (onset_energy self) as [so|]; cbn [attr]; [|discriminate].
  destruct (integrateq_qint _ _ _ _) as [[E q]| |] eqn:Hq; cbn [fst snd];
    try discriminate.
  intros _. exists so, E, q. split; [reflexivity|]. split; [exact Hq | reflexivity].
Qed.

(** When a call returns and every number it has computed is finite (the
    outcome [Ok]: no NaN and no infinity arose, so no shifted energy is
    0), the [qint] it stores has one entry per energy of the axis, and the
    entries past the last row of the GOS are 0: the loop of line 190 runs
    over the rows and leaves the rest of the array of zeros as line 185
    made it. *)
Theorem qint_has_the_shape_of_the_energy_axis
  (self : HartreeSlaterGOS) (onset angle E0 : R)
  (ea : list R) (g : list (list R)) (f : interpolant) :
  energy_axis self = Some ea -> gos_array self = Some g ->
  snd (integrateq self onset angle E0) = Ok f ->
  exists q,
    qint (fst (integrateq self onset angle E0)) = Some q
    /\ List.length q = List.length ea
    /\ forall j, (List.length g <= j < List.length ea)%nat ->
         nth_error q j = Some 0.
Proof.
  intros Hea Hg H.
  destruct (integrateq_returns_qint _ _ _ _ H) as (so & E & q & _ & Hq & Hqint).
  destruct (@integrateq_qint_shape _ _ _ _ ea g E q Hea Hg Hq) as (_ & H2 & H3).
  exists q. repeat split; assumption.
Qed.

Lemma integrateq_loop_app (row : nat -> result R) (l1 l2 : list nat) (qint : list R) :
  integrateq_loop row (l1 ++ l2) qint
  = (q1 <- integrateq_loop row l1 qint ;; integrateq_loop row l2 q1)%result.
Proof.
  revert qint. induction l1 as [|i l1 IH]; intros qint; [reflexivity|].
  cbn [app integrateq_loop].
  destruct (row i) as [v| |]; cbn [bind]; try reflexivity.
  destruct (list_set qint i v) as [q'| |]; cbn [bind]; try reflexivity.
  apply IH.
Qed.

Lemma map_result_all_Ok {A B : Type} (f : A -> result B) (l : list A) :
  (forall a, In a l -> exists b, f a = Ok b) -> exists bs, map_result f l = Ok bs.
Proof.
  induction l as [|a l IH]; intros H; [now exists []|].
  destruct (H a (or_introl eq_refl)) as [b Hb].
  destruct IH as [bs Hbs]; [intros a' Ha'; apply H; now right|].
  exists (b :: bs). cbn [map_result]. now rewrite Hb, Hbs.
Qed.

(** With more rows in the GOS than energies on the axis a call never
    returns; when the rows that have an energy are integrated, it ends
    with [IndexError] at [self.energy_axis[i]] (line 191). *)
Theorem more_rows_than_energies_never_returns
  (self : HartreeSlaterGOS) (onset angle E0 : R)
  (ea : list R) (g : list (list R)) :
  energy_axis self = Some ea -> gos_array self = Some g ->
  (List.length ea < List.length g)%nat ->
  (forall f, snd (integrateq self onset angle E0) <> Ok f)
  /\ forall so T,
       onset_energy self = Some so ->
       kinetic_T (1 + E0 / 511.06) = Ok T ->
       (forall i, (i < List.length ea)%nat ->
          exists v, integrateq_row (set_energy_shift (onset - so) self)
                      (onset - so) angle (1 + E0 / 511.06) T i = Ok v) ->
       snd (integrateq self onset angle E0) = Raise IndexError.
Proof.
  intros Hea Hg Hlt. split.
  - intros f H.
    destruct (integrateq_returns_qint _ _ _ _ H) as (so & E & q & _ & Hq & _).
    destruct (@integrateq_qint_shape _ _ _ _ ea g E q Hea Hg Hq) as (Hle & _).
    lia.
  - intros so T Hso HT Hrows.
    assert (Hq : integrateq_qint (set_energy_shift (onset - so) self) (onset - so)
                   angle E0 = Raise IndexError).
    { unfold integrateq_qint. cbn [set_energy_shift energy_axis gos_array].
      rewrite Hea, Hg, HT. cbn [attr bind].
      replace (List.length g)
        with (List.length ea + S (List.length g - S (List.length ea)))%nat by lia.
      rewrite seq_app, integrateq_loop_app.
      rewrite integrateq_loop_seq by (rewrite repeat_length; lia).
      destruct (@map_result_all_Ok _ _
                  (integrateq_row (set_energy_shift (onset - so) self) (onset - so)
                     angle (1 + E0 / 511.06) T) (seq 0 (List.length ea)))
        as [vs Hvs].
      { intros i Hi. apply in_seq in Hi. apply Hrows. lia. }
      rewrite Hvs. cbn [bind Nat.add seq integrateq_loop].
      unfold integrateq_row at 1. cbn [set_energy_shift energy_axis].
      rewrite Hea. cbn [attr bind]. unfold index.
      rewrite (proj2 (nth_error_None ea (List.length ea)) (Nat.le_refl _)).
      reflexivity. }
    unfold integrateq. rewrite Hso. cbn [attr]. now rewrite Hq.
Qed.

End Shape.

(** ** Names, directories and files *)

Section Names.

Local Open Scope string_scope.

Lemma split_on_length (sep : ascii) (s : string) :
  List.length (split_on sep s) = S (count_char sep s).
Proof.
  induction s as [|c s IH]; [reflexivity|].
  cbn [split_on count_char].
  destruct (Ascii.eqb c sep); cbn [List.length Nat.add].
  - now rewrite IH.
  - destruct (split_on sep s) as [|t ts]; [discriminate IH|].
    cbn [List.length] in *. exact IH.
Qed.

Lemma split_on_no_sep (sep : ascii) (s : string) :
  count_char sep s = 0%nat -> split_on sep s = [s].
Proof.
  induction s as [|c s IH]; [reflexivity|].
  cbn [split_on count_char].
  destruct (Ascii.eqb c sep); [discriminate|].
  intros H. now rewrite (IH H).
Qed.

Lemma split_on_join (sep : ascii) (a b : string) :
  count_char sep a = 0%nat ->
  split_on sep (a ++ String sep b) = a :: split_on sep b.
Proof.
  induction a as [|c a IH]; cbn [append split_on count_char].
  - now rewrite Ascii.eqb_refl.
  - destruct (Ascii.eqb c sep); [discriminate|].
    intros H. now rewrite (IH H).
Qed.

Lemma split_on_two (sep : ascii) (s a b : string) :
  split_on sep s = [a; b] ->
  s = a ++ String sep b /\ count_char sep a = 0%nat /\ count_char sep b = 0%nat.
Proof.
  revert a. induction s as [|c s IH]; intros a; [discriminate|].
  cbn [split_on].
  destruct (Ascii.eqb_spec c sep) as [->|Hne].
  - intros H. injection H as <- H.
    assert (Hb : count_char sep s = 0%nat).
    { pose proof (split_on_length sep s) as Hl. rewrite H in Hl.
      cbn [List.length] in Hl. lia. }
    rewrite (@split_on_no_sep _ _ Hb) in H. injection H as ->.
    repeat split; assumption.
  - destruct (split_on sep s) as [|t ts] eqn:Hs; [discriminate|].
    intros H. injection H as <- ->.
    destruct (IH t eq_refl) as (-> & Ha & Hb).
    cbn [append count_char].
    destruct (Ascii.eqb_spec c sep) as [Heq|_]; [contradiction|].
    repeat split; assumption.
Qed.

Context {ext : Externals}.

(** [read_elements] on an object that holds the two names. *)
Lemma read_elements_known (self : HartreeSlaterGOS) (el sub : string)
  (onset : R) (e : ConventionEntry) :
  element self = Some el -> subshell self = Some sub ->
  GOSBase_read_elements el sub = Ok onset -> conventions_get sub = Ok e ->
  read_elements self = Ok (set_subshell_factor (factor e) (set_onset_energy onset self)).
Proof.
  intros Hel Hsub Hbase He. unfold read_elements.
  rewrite Hel, Hsub. cbn [attr bind]. rewrite Hbase. cbn [bind set_onset_energy subshell].
  rewrite Hsub. cbn [attr bind]. rewrite He. reflexivity.
Qed.

(** The events of [readgosfile] and what it returns, step by step. *)
Lemma readgosfile_steps (self : HartreeSlaterGOS) (el sub : string)
  (onset : R) (e : ConventionEntry) :
  element self = Some el -> subshell self = Some sub ->
  onset_energy self = Some onset -> conventions_get sub = Ok e ->
  readgosfile self
  = if is_dir eels_gos_files_path then
      ([LogInfo; IsDir eels_gos_files_path;
        OpenFile (joinpath eels_gos_files_path (el ++ "." ++ table e))],
       match read_text (joinpath eels_gos_files_path (el ++ "." ++ table e)) with
       | None => Raise FileNotFoundError
       | Some content =>
           ('(h, g) <- parse_gos_list (py_split (remove_cr content)) ;;
            rel <- get_parametrized_energy_axis (info2_1 h) (info2_2 h) (nrow h) ;;
            q <- get_parametrized_qaxis (info1_1 h) (info1_2 h) (ncol h) ;;
            Ok (set_energy_axis (add_scalar rel onset)
                  (set_qaxis q (set_rel_energy_axis rel (set_gos_array g self)))))%result
       end)
    else ([LogInfo; IsDir eels_gos_files_path], Raise FileNotFoundError).
Proof.
  intros Hel Hsub Honset He. unfold readgosfile.
  rewrite Hel, Hsub, Honset. cbn [attr bind].
  rewrite io_bind_pure, io_bind_emit, !io_bind_pure, He, io_bind_emit.
  destruct (is_dir eels_gos_files_path); cbn [negb]; [|reflexivity].
  rewrite io_bind_emit, io_bind_pure.
  destruct (read_text _) as [content|]; [|reflexivity].
  rewrite io_bind_pure.
  destruct (parse_gos_list _) as [[h g]| |]; cbn [bind fst snd]; try reflexivity.
  rewrite io_bind_pure.
  destruct (get_parametrized_energy_axis _ _ _) as [rel| |]; cbn [bind fst snd];
    try reflexivity.
  rewrite io_bind_pure.
  destruct (get_parametrized_qaxis _ _ _) as [q| |]; cbn [bind fst snd];
    try reflexivity.
  cbn [set_qaxis set_rel_energy_axis set_gos_array rel_energy_axis onset_energy].
  rewrite Honset. cbn [attr]. rewrite !io_bind_pure. reflexivity.
Qed.

(** A name that does not hold exactly one underscore raises [ValueError]
    at the unpacking of line 112, before the base class, the convention
    table or the file system is consulted. *)
Theorem name_needs_exactly_one_underscore (s : string) :
  count_char "_" s <> 1%nat ->
  __init__ (FromString s) = ([], Raise ValueError).
Proof.
  intros H. unfold __init__. cbv zeta.
  pose proof (split_on_length "_" s) as Hl.
  destruct (split_on "_" s) as [|el [|sub [|x l]]]; try reflexivity.
  cbn [List.length] in Hl. lia.
Qed.


(** The constructor on a name [el_sub] of a known subshell: the object on
    which [readgosfile] is called. *)
Lemma init_calls_readgosfile (el sub : string) (onset : R) (e : ConventionEntry) :
  count_char "_" el = 0%nat -> count_char "_" sub = 0%nat ->
  GOSBase_read_elements el sub = Ok onset -> conventions_get sub = Ok e ->
  __init__ (FromString (el ++ "_" ++ sub))
  = readgosfile (mkGOS (Some whitelist_keys) (Some el) (Some sub) (Some onset)
                       (Some (factor e)) None None None None None None).
Proof.
  intros Hel Hsub Hbase He. unfold __init__. cbv zeta.
  change (el ++ "_" ++ sub) with (el ++ String "_" sub).
  rewrite (@split_on_join _ _ _ Hel), (@split_on_no_sep _ _ Hsub).
  rewrite io_bind_pure.
  erewrite read_elements_known; [|reflexivity|reflexivity|exact Hbase|exact He].
  reflexivity.
Qed.

(** When the directory of the tables does not exist, the constructor on
    the name of a known element and subshell logs, looks the directory up
    and raises [FileNotFoundError]: no file is opened. *)
Theorem missing_gos_directory (el sub : string) (onset : R) (e : ConventionEntry) :
  count_char "_" el = 0%nat -> count_char "_" sub = 0%nat ->
  GOSBase_read_elements el sub = Ok onset -> conventions_get sub = Ok e ->
  is_dir eels_gos_files_path = false ->
  __init__ (FromString (el ++ "_" ++ sub))
  = ([LogInfo; IsDir eels_gos_files_path], Raise FileNotFoundError).
Proof.
  intros Hel Hsub Hbase He Hdir.
  rewrite (@init_calls_readgosfile _ _ _ _ Hel Hsub Hbase He).
  erewrite readgosfile_steps; [|reflexivity|reflexivity|reflexivity|exact He].
  now rewrite Hdir.
Qed.

(** An index past the end of the list. *)
Lemma index_short {A : Type} (l : list A) (k : nat) :
  (List.length l <= k)%nat -> index l k = Raise IndexError.
Proof.
  intros H. unfold index. now rewrite (proj2 (nth_error_None l k) H).
Qed.

Lemma index_cases {A : Type} (l : list A) (k : nat) :
  (exists a, index l k = Ok a) \/ index l k = Raise IndexError.
Proof.
  unfold index. destruct (nth_error l k); [left; eauto | now right].
Qed.

(** With fewer than 9 tokens the parse raises, at the first token that is
    missing or is not a number. *)
Lemma parse_gos_list_short (toks : list string) :
  (List.length toks < 9)%nat ->
  forall P : result (gos_header * list (list R)) -> Prop,
    P (Raise IndexError) -> P (Raise ValueError) -> P (parse_gos_list toks).
Proof.
  intros H P PI PV. unfold parse_gos_list.
  destruct (index_cases toks 2) as [[t2 H2]|H2]; rewrite H2; cbn [bind];
    [|exact PI].
  unfold to_float at 1. destruct (py_float t2); cbn [bind]; [|exact PV].
  destruct (index_cases toks 3) as [[t3 H3]|H3]; rewrite H3; cbn [bind];
    [|exact PI].
  unfold to_float at 1. destruct (py_float t3); cbn [bind]; [|exact PV].
  destruct (index_cases toks 5) as [[t5 H5]|H5]; rewrite H5; cbn [bind];
    [|exact PI].
  unfold to_int at 1. destruct (py_int t5); cbn [bind]; [|exact PV].
  destruct (index_cases toks 6) as [[t6 H6]|H6]; rewrite H6; cbn [bind];
    [|exact PI].
  unfold to_float at 1. destruct (py_float t6); cbn [bind]; [|exact PV].
  destruct (index_cases toks 7) as [[t7 H7]|H7]; rewrite H7; cbn [bind];
    [|exact PI].
  unfold to_float at 1. destruct (py_float t7); cbn [bind]; [|exact PV].
  rewrite (@index_short _ toks 8) by lia. exact PI.
Qed.

Lemma parse_gos_list_shorter (toks : list string) :
  (List.length toks < 3)%nat -> parse_gos_list toks = Raise IndexError.
Proof.
  intros H. unfold parse_gos_list. now rewrite (@index_short _ toks 2) by lia.
Qed.

(** A table file of fewer than 9 tokens never loads: the constructor
    raises [IndexError] or [ValueError], and [IndexError] when there are
    fewer than 3 tokens, as in an empty file. *)
Theorem short_table_file_never_loads (el sub : string) (onset : R)
  (e : ConventionEntry) (content : string) :
  count_char "_" el = 0%nat -> count_char "_" sub = 0%nat ->
  GOSBase_read_elements el sub = Ok onset -> conventions_get sub = Ok e ->
  is_dir eels_gos_files_path = true ->
  read_text (joinpath eels_gos_files_path (el ++ "." ++ table e)) = Some content ->
  (List.length (py_split (remove_cr content)) < 9)%nat ->
  (snd (__init__ (FromString (el ++ "_" ++ sub))) = Raise IndexError
   \/ snd (__init__ (FromString (el ++ "_" ++ sub))) = Raise ValueError)
  /\ ((List.length (py_split (remove_cr content)) < 3)%nat ->
      snd (__init__ (FromString (el ++ "_" ++ sub))) = Raise IndexError).
Proof.
  intros Hel Hsub Hbase He Hdir Hread Hshort.
  rewrite (@init_calls_readgosfile _ _ _ _ Hel Hsub Hbase He).
  erewrite readgosfile_steps; [|reflexivity|reflexivity|reflexivity|exact He].
  rewrite Hdir. cbn [element]. rewrite Hread. cbn [snd].
  split.
  - apply (@parse_gos_list_short _ Hshort
             (fun r => (' (h, g) <- r ;; _)%result = Raise IndexError
                       \/ (' (h, g) <- r ;; _)%result = Raise ValueError));
      [now left | now right].
  - intros Hlt. now rewrite (@parse_gos_list_shorter _ Hlt).
Qed.

(** When the constructor returns on a string, the string is
    [el ++ "_" ++ sub] for a subshell [sub] of the convention table; the
    constructor has logged, looked the directory up and opened the one
    file [{el}.{table}] of the entry of [sub], in this order; and the
    object holds the two names, the onset energy of the base class, the
    factor of the entry and the whole table, with [energy_shift] and
    [qint] not assigned. *)
Theorem construction_reads_one_table (s : string) (self : HartreeSlaterGOS) :
  snd (__init__ (FromString s)) = Ok self ->
  exists el sub onset e,
    s = el ++ "_" ++ sub
    /\ GOSBase_read_elements el sub = Ok onset
    /\ conventions_get sub = Ok e
    /\ fst (__init__ (FromString s))
       = [LogInfo; IsDir eels_gos_files_path;
          OpenFile (joinpath eels_gos_files_path (el ++ "." ++ table e))]
    /\ _whitelist self = Some whitelist_keys
    /\ element self = Some el /\ subshell self = Some sub
    /\ onset_energy self = Some onset
    /\ subshell_factor self = Some (factor e)
    /\ (exists t, table_of self = Some t)
    /\ energy_shift self = None /\ qint self = None.
Proof.
  unfold __init__. cbv zeta.
  destruct (split_on "_" s) as [|el [|sub [|x l]]] eqn:Hs; try discriminate.
  destruct (@split_on_two _ _ _ _ Hs) as (-> & Hel & Hsub).
  rewrite io_bind_pure.
  destruct (GOSBase_read_elements el sub) as [onset| |] eqn:Hbase;
    [|unfold read_elements;
      cbn [set_subshell set_element element subshell attr bind];
      rewrite Hbase; discriminate..].
  destruct (conventions_get sub) as [e| |] eqn:He;
    [|unfold read_elements;
      cbn [set_subshell set_element element subshell attr bind];
      rewrite Hbase;
      cbn [bind set_onset_energy set_subshell set_element subshell attr];
      rewrite He; discriminate..].
  erewrite read_elements_known; [|reflexivity|reflexivity|exact Hbase|exact He].
  erewrite readgosfile_steps; [|reflexivity|reflexivity|reflexivity|exact He].
  destruct (is_dir eels_gos_files_path); [|discriminate].
  cbn [fst snd].
  destruct (read_text _) as [content|]; [|discriminate].
  destruct (parse_gos_list _) as [[h g]| |]; cbn [bind]; try discriminate.
  destruct (get_parametrized_energy_axis _ _ _) as [rel| |]; cbn [bind];
    try discriminate.
  destruct (get_parametrized_qaxis _ _ _) as [q| |]; cbn [bind]; try discriminate.
  intros H. injection H as <-.
  exists el, sub, onset, e.
  split; [reflexivity|]. split; [exact Hbase|]. split; [exact He|].
  repeat split. eexists. reflexivity.
Qed.

End Names.

(** ** A row count of -1 *)

Section InferredRows.

Context {ext : Externals}.

(** What a parse that returns has read. *)
Lemma parse_gos_list_reshape (toks : list string) (h : gos_header)
  (g : list (list R)) :
  parse_gos_list toks = Ok (h, g) ->
  exists flat g0,
    (9 <= List.length toks)%nat
    /\ List.length flat = (List.length toks - 9)%nat
    /\ reshape flat (nrow h) (ncol h) = Ok g0
    /\ g = map (map (fun x => (x / Rydberg)%R)) g0.
Proof.
  unfold parse_gos_list.
  destruct (index toks 2) as [t2| |]; cbn [bind]; try discriminate.
  destruct (to_float t2) as [i11| |]; cbn [bind]; try discriminate.
  destruct (index toks 3) as [t3| |]; cbn [bind]; try discriminate.
  destruct (to_float t3) as [i12| |]; cbn [bind]; try discriminate.
  destruct (index toks 5) as [t5| |]; cbn [bind]; try discriminate.
  destruct (to_int t5) as [nc| |]; cbn [bind]; try discriminate.
  destruct (index toks 6) as [t6| |]; cbn [bind]; try discriminate.
  destruct (to_float t6) as [i21| |]; cbn [bind]; try discriminate.
  destruct (index toks 7) as [t7| |]; cbn [bind]; try discriminate.
  destruct (to_float t7) as [i22| |]; cbn [bind]; try discriminate.
  destruct (index toks 8) as [t8| |] eqn:H8; cbn [bind]; try discriminate.
  destruct (to_int t8) as [nr| |]; cbn [bind]; try discriminate.
  destruct (map_result to_float (skipn 9 toks)) as [flat| |] eqn:Hflat;
    cbn [bind]; try discriminate.
  destruct (reshape flat nr nc) as [g0| |] eqn:Hg; cbn [bind]; try discriminate.
  intros H. injection H as <- <-. cbn [nrow ncol].
  exists flat, g0.
  assert (H9 : (9 <= List.length toks)%nat).
  { unfold index in H8. destruct (nth_error toks 8) eqn:Hn; [|discriminate H8].
    assert (8 < List.length toks)%nat by (apply nth_error_Some; congruence). lia. }
  apply map_result_Ok, Forall2_same_length in Hflat.
  rewrite length_skipn in Hflat.
  repeat split; try assumption. lia.
Qed.

(** When the header gives -1 for the number of rows and the parse
    returns, the number of columns M is positive and divides the number of
    values, and the matrix has (number of values) / M rows of M
    entries. *)
Theorem row_count_minus_one_is_inferred (toks : list string) (h : gos_header)
  (g : list (list R)) :
  parse_gos_list toks = Ok (h, g) -> nrow h = (-1)%Z ->
  (0 < ncol h)%Z
  /\ ((Z.of_nat (List.length toks) - 9) mod ncol h = 0)%Z
  /\ Z.of_nat (List.length g) = ((Z.of_nat (List.length toks) - 9) / ncol h)%Z
  /\ forall row, In row g -> Z.of_nat (List.length row) = ncol h.
Proof.
  intros H Hrow.
  destruct (parse_gos_list_reshape _ H) as (flat & g0 & H9 & Hlen & Hre & ->).
  unfold reshape in Hre. rewrite Hrow in Hre. cbn [Z.ltb Z.compare] in Hre.
  destruct (Z.ltb_spec (ncol h) 0) as [|Hnc]; [discriminate Hre|].
  destruct (Z.eqb_spec (ncol h) 0) as [|Hnz]; [discriminate Hre|].
  cbn [orb] in Hre.
  destruct (Z.eqb_spec (Z.of_nat (List.length flat) mod ncol h) 0) as [Hmod|];
    [|discriminate Hre].
  cbn [negb] in Hre. injection Hre as <-.
  assert (Hsize : Z.of_nat (List.length flat) = (Z.of_nat (List.length toks) - 9)%Z)
    by lia.
  rewrite Hsize in *.
  assert (Hpos : (0 < ncol h)%Z) by lia.
  split; [exact Hpos|]. split; [exact Hmod|]. split.
  - rewrite length_map, rows_of_length, Z2Nat.id; [reflexivity|].
    apply Z.div_pos; lia.
  - intros row Hin. apply in_map_iff in Hin. destruct Hin as (r0 & <- & Hin).
    rewrite length_map. unfold rows_of in Hin. apply in_map_iff in Hin.
    destruct Hin as (i & <- & Hi). apply in_seq in Hi.
    rewrite length_firstn, length_skipn.
    assert (Hdiv : (Z.of_nat (List.length flat)
                    = ncol h * ((Z.of_nat (List.length toks) - 9) / ncol h))%Z).
    { rewrite Hsize. apply Z.div_exact; lia. }
    assert (Hq : (0 <= (Z.of_nat (List.length toks) - 9) / ncol h)%Z)
      by (apply Z.div_pos; lia).
    nia.
Qed.

End InferredRows.

(** ** Construction and calls on the concrete environment *)

Section OnTables.

Import Example.

Local Open Scope string_scope.

(** The family N6,7. *)
Lemma family_shares_table_witness :
  In "N6,7" families /\ family_members "N6,7" = Some ("N6", "N7")
  /\ exists e e1 e2,
       conventions_get "N6,7" = Ok e /\ conventions_get "N6" = Ok e1
       /\ conventions_get "N7" = Ok e2
       /\ table e = "N7" /\ table e1 = "N7" /\ table e2 = "N7".
Proof.
  assert (Hin : In "N6,7" families) by (unfold families; simpl; tauto).
  split; [exact Hin|]. split; [reflexivity|].
  exact (@family_shares_table "N6,7" "N6" "N7" Hin eq_refl).
Defined.

(** The label L2, whose table is L3. *)
Lemma tabulated_edge_has_factor_1_witness :
  conventions_get "L2" = Ok {| table := "L3"; factor := 1 # 2 |}
  /\ "L2" <> "K"
  /\ conventions_get "L3" = Ok {| table := "L3"; factor := 1 |}.
Proof.
  assert (Hne : "L2" <> "K") by discriminate.
  split; [reflexivity|]. split; [exact Hne|].
  exact (@tabulated_edge_has_factor_1 "L2" {| table := "L3"; factor := 1 # 2 |}
           eq_refl Hne).
Defined.

(** The name ["Ti"], with no underscore. *)
Lemma name_needs_exactly_one_underscore_witness :
  count_char "_" "Ti" <> 1%nat
  /\ __init__ (FromString "Ti") = ([], Raise ValueError).
Proof.
  assert (H : count_char "_" "Ti" <> 1%nat) by discriminate.
  split; [exact H|].
  exact (@name_needs_exactly_one_underscore externals "Ti" H).
Defined.

(** The name ["Ti_L3"] where the directory [/gos] does not exist. *)
Lemma missing_gos_directory_witness :
  count_char "_" "Ti" = 0%nat /\ count_char "_" "L3" = 0%nat
  /\ @GOSBase_read_elements (environment false files) "Ti" "L3" = Ok 456%R
  /\ conventions_get "L3" = Ok {| table := "L3"; factor := 1 |}
  /\ @is_dir (environment false files)
       (@eels_gos_files_path (environment false files)) = false
  /\ @__init__ (environment false files) (FromString "Ti_L3")
     = ([LogInfo; IsDir "/gos"], Raise FileNotFoundError).
Proof.
  do 5 (split; [reflexivity|]).
  exact (@missing_gos_directory (environment false files) "Ti" "L3" 456%R
           {| table := "L3"; factor := 1 |} eq_refl eq_refl eq_refl eq_refl eq_refl).
Defined.

(** The name ["Ti_L3"] where the file [/gos/Ti.L3] is empty. *)
Lemma short_table_file_never_loads_witness :
  count_char "_" "Ti" = 0%nat /\ count_char "_" "L3" = 0%nat
  /\ @is_dir (environment true [("/gos/Ti.L3", "")])
       (@eels_gos_files_path (environment true [("/gos/Ti.L3", "")])) = true
  /\ @read_text (environment true [("/gos/Ti.L3", "")]) "/gos/Ti.L3" = Some ""
  /\ (List.length (py_split (remove_cr "")) < 3)%nat
  /\ snd (@__init__ (environment true [("/gos/Ti.L3", "")]) (FromString "Ti_L3"))
     = Raise IndexError.
Proof.
  assert (H9 : (List.length (py_split (remove_cr "")) < 9)%nat) by (simpl; lia).
  assert (H3 : (List.length (py_split (remove_cr "")) < 3)%nat) by (simpl; lia).
  do 4 (split; [reflexivity|]). split; [exact H3|].
  exact (proj2 (@short_table_file_never_loads (environment true [("/gos/Ti.L3", "")])
                  "Ti" "L3" 456%R {| table := "L3"; factor := 1 |} ""
                  eq_refl eq_refl eq_refl eq_refl eq_refl eq_refl H9) H3).
Defined.

(** The name ["Ti_L3"]: the constructor opens [/gos/Ti.L3]. *)
Lemma construction_reads_one_table_witness :
  exists self,
    snd (__init__ (FromString "Ti_L3")) = Ok self
    /\ fst (__init__ (FromString "Ti_L3"))
       = [LogInfo; IsDir "/gos"; OpenFile "/gos/Ti.L3"]
    /\ exists el sub onset e,
         "Ti_L3" = el ++ "_" ++ sub
         /\ GOSBase_read_elements el sub = Ok onset
         /\ conventions_get sub = Ok e
         /\ fst (__init__ (FromString "Ti_L3"))
            = [LogInfo; IsDir eels_gos_files_path;
               OpenFile (joinpath eels_gos_files_path (el ++ "." ++ table e))]
         /\ _whitelist self = Some whitelist_keys
         /\ element self = Some el /\ subshell self = Some sub
         /\ onset_energy self = Some onset
         /\ subshell_factor self = Some (factor e)
         /\ (exists t, table_of self = Some t)
         /\ energy_shift self = None /\ qint self = None.
Proof.
  eexists. split; [reflexivity|]. split; [reflexivity|].
  exact (@construction_reads_one_table externals "Ti_L3" _ eq_refl).
Defined.

(** The file [/gos/Ti.K1]: -1 rows of 2 columns before 4 values. *)
Lemma row_count_minus_one_is_inferred_witness :
  exists h g,
    parse_gos_list (py_split (remove_cr Ti_K1)) = Ok (h, g)
    /\ nrow h = (-1)%Z
    /\ (0 < ncol h)%Z
    /\ ((Z.of_nat (List.length (py_split (remove_cr Ti_K1))) - 9) mod ncol h = 0)%Z
    /\ Z.of_nat (List.length g)
       = ((Z.of_nat (List.length (py_split (remove_cr Ti_K1))) - 9) / ncol h)%Z
    /\ forall row, In row g -> Z.of_nat (List.length row) = ncol h.
Proof.
  do 2 eexists. split; [reflexivity|]. split; [reflexivity|].
  exact (@row_count_minus_one_is_inferred externals (py_split (remove_cr Ti_K1)) _ _
           eq_refl eq_refl).
Defined.

End OnTables.

Section OnCalls.

Import Example.

(** The row of [one_row] is the row of [wide]. *)
Lemma one_row_returns : exists f, snd (integrateq one_row 100 0.01 100) = Ok f.
Proof.
  destruct wide_row as [v Hv].
  assert (Hrow : integrateq_row (set_energy_shift (100 - 100) one_row) (100 - 100)
                   0.01 (spec_gamma 100) (spec_T 100) 0 = Ok v) by exact Hv.
  clear Hv.
  unfold integrateq. cbn [onset_energy one_row attr].
  unfold integrateq_qint.
  change (1 + 100 / 511.06) with (spec_gamma 100).
  rewrite kinetic_T_spec.
  destruct (Req_dec_T ((spec_gamma 100) ^ 2) 0) as [Hz|_];
    [exfalso; revert Hz; unfold spec_gamma; lra|].
  cbn [set_energy_shift energy_axis gos_array subshell_factor].
  change (energy_axis one_row) with (Some [100; 110]).
  change (gos_array one_row) with (Some [[1; 1]]).
  change (subshell_factor one_row) with (Some 1%Q).
  cbn [attr bind List.length repeat seq integrateq_loop].
  rewrite Hrow. cbn [bind]. unfold list_set.
  cbn [List.length Nat.ltb Nat.leb firstn skipn app bind].
  unfold scale_qint, add_scalar. cbn [map map_result bind].
  rewrite np_div_Ok by lra. cbn [bind].
  rewrite np_div_Ok by (unfold spec_T, spec_gamma; lra). cbn [bind].
  rewrite np_div_Ok by lra. cbn [bind].
  rewrite np_div_Ok by (unfold spec_T, spec_gamma; lra).
  cbn [bind combine map fst snd interp1d externals]. eexists. reflexivity.
Qed.

(** A beam of 100 keV and an energy loss of 100 eV. *)
Lemma q_limits_within_beam_energy_witness :
  0 < 100 /\ 0 <= 100 <= 1000 * 100
  /\ exists T qmin qmax,
       kinetic_T (1 + 100 / 511.06) = Ok T
       /\ 0 < T < 255530
       /\ q_limits 0.01 (1 + 100 / 511.06) T 100 = Ok (qmin, qmax)
       /\ 0 <= qmin <= qmax.
Proof.
  assert (H0 : 0 < 100) by lra.
  assert (HE : 0 <= 100 <= 1000 * 100) by lra.
  split; [exact H0|]. split; [exact HE|].
  exact (@q_limits_within_beam_energy externals 0.01 100 100 H0 HE).
Defined.

(** A beam of 100 keV and an energy loss of 200 keV. *)
Lemma energy_loss_above_beam_energy_is_not_an_error_witness :
  0 < 100 /\ 1000 * 100 < 200000 < 1000 * 100 + 1022120
  /\ exists T,
       kinetic_T (1 + 100 / 511.06) = Ok T
       /\ q_limits 0.01 (1 + 100 / 511.06) T 200000 = NonFinite.
Proof.
  assert (H0 : 0 < 100) by lra.
  assert (HE : 1000 * 100 < 200000 < 1000 * 100 + 1022120) by lra.
  split; [exact H0|]. split; [exact HE|].
  exact (@energy_loss_above_beam_energy_is_not_an_error externals 0.01 100 200000
           H0 HE).
Defined.

(** The scenario under a beam of -511.06 keV. *)
Lemma zero_gamma_raises_witness :
  onset_energy scenario = Some 100
  /\ energy_axis scenario = Some [100; 110; 120]
  /\ integrateq scenario 100 0.01 (-511.06)
     = (set_energy_shift (100 - 100) scenario, Raise ZeroDivisionError).
Proof.
  split; [reflexivity|]. split; [reflexivity|].
  exact (@zero_gamma_raises externals scenario 100 0.01 100 [100; 110; 120]
           eq_refl eq_refl).
Defined.

(** The table [wide], whose factor is 1, and the factor 1/2. *)
Lemma integrateq_scales_with_subshell_factor_witness :
  exists r,
    snd (integrateq (set_subshell_factor 1 wide) 100 0.01 100) = Ok r
    /\ exists q1,
         qint (fst (integrateq (set_subshell_factor 1 wide) 100 0.01 100)) = Some q1
         /\ qint (fst (integrateq (set_subshell_factor (1 # 2) wide) 100 0.01 100))
            = Some (map (fun x => x * Q2R (1 # 2)) q1).
Proof.
  destruct wide_returns as [r Hr]. exists r. split; [exact Hr|].
  exact (@integrateq_scales_with_subshell_factor externals wide (1 # 2) 100 0.01 100
           r Hr).
Defined.

(** Two energies over one row: the second entry of [qint] is 0. *)
Lemma qint_has_the_shape_of_the_energy_axis_witness :
  exists f,
    energy_axis one_row = Some [100; 110]
    /\ gos_array one_row = Some [[1; 1]]
    /\ snd (integrateq one_row 100 0.01 100) = Ok f
    /\ exists q,
         qint (fst (integrateq one_row 100 0.01 100)) = Some q
         /\ List.length q = List.length [100; 110]
         /\ forall j, (List.length [[1; 1]] <= j < List.length [100; 110])%nat ->
              nth_error q j = Some 0.
Proof.
  destruct one_row_returns as [f Hf]. exists f.
  split; [reflexivity|]. split; [reflexivity|]. split; [exact Hf|].
  exact (@qint_has_the_shape_of_the_energy_axis externals one_row 100 0.01 100
           [100; 110] [[1; 1]] f eq_refl eq_refl Hf).
Defined.

(** One energy under two rows. *)
Lemma more_rows_than_energies_never_returns_witness :
  energy_axis two_rows = Some [100]
  /\ gos_array two_rows = Some [[1; 1]; [1; 1]]
  /\ (List.length [100] < List.length [[1; 1]; [1; 1]])%nat
  /\ (forall f, snd (integrateq two_rows 100 0.01 100) <> Ok f)
  /\ forall so T,
       onset_energy two_rows = Some so ->
       kinetic_T (1 + 100 / 511.06) = Ok T ->
       (forall i, (i < List.length [100])%nat ->
          exists v, integrateq_row (set_energy_shift (100 - so) two_rows)
                      (100 - so) 0.01 (1 + 100 / 511.06) T i = Ok v) ->
       snd (integrateq two_rows 100 0.01 100) = Raise IndexError.
Proof.
  assert (Hlt : (List.length [100] < List.length [[1; 1]; [1; 1]])%nat)
    by (simpl; lia).
  split; [reflexivity|]. split; [reflexivity|]. split; [exact Hlt|].
  exact (@more_rows_than_energies_never_returns externals two_rows 100 0.01 100
           [100] [[1; 1]; [1; 1]] eq_refl eq_refl Hlt).
Defined.

End OnCalls.
